(** * pytest-mcp: a shallow embedding of the test-harness engine

    The development follows the Python sources of the package:
    - [snapshot.py]   the snapshot store ([SnapshotHelper]) together with the
                      part of [json.dumps] / [json.loads] it relies on;
    - [client.py]     the session ([MockMCPClient]) and its scoped resources;
    - [server.py]     the lifecycle manager ([MCPTestServer]) and its factory;
    - [assertions.py] the error-expectation helper.

    Python [str] values are modelled by [string], read as sequences of code
    points below 256; JSON numbers are Python integers ([Z]).  Floating-point
    numbers and code points above 255 are outside the embedding. *)

From Stdlib Require Import ZArith NArith Ascii String List Bool Lia.
From Stdlib Require Import Decimal DecimalFacts DecimalN DecimalZ.
From stdpp Require Import base option list sorting gmap strings.

Local Open Scope Z_scope.
Set Warnings "-register-all".

(* ===================================================================== *)
(** ** Text *)
(* ===================================================================== *)

(** Serialized text is handled as a list of characters ([text]) and stored
    as a [string]. *)
Definition text := list ascii.

Definition chars (s : string) : text := list_ascii_of_string s.
Definition str (t : text) : string := string_of_list_ascii t.

Definition dquote : ascii := "034"%char.
Definition backslash : ascii := "092"%char.
Definition newline : ascii := "010"%char.
Definition space : ascii := "032"%char.

Definition ascii_eqb (a b : ascii) : bool := Ascii.eqb a b.

(** [str.join]: the pieces separated by [sep]. *)
Fixpoint join (sep : text) (pieces : list text) : text :=
  match pieces with
  | [] => []
  | [p] => p
  | p :: rest => p ++ sep ++ join sep rest
  end.

(** Python's [sorted] on records compared by a string key: a stable
    insertion sort for the code-point order of [str]. *)
Fixpoint insert_sorted {A} (key : A -> string) (x : A) (l : list A) : list A :=
  match l with
  | [] => [x]
  | y :: l' =>
      if String.leb (key x) (key y) then x :: y :: l'
      else y :: insert_sorted key x l'
  end.

Definition py_sorted {A} (key : A -> string) (l : list A) : list A :=
  foldr (insert_sorted key) [] l.

(* ===================================================================== *)
(** ** Values and JSON data *)
(* ===================================================================== *)

(** A Python value as [json.dumps] sees it.  [VOther s] is any object that
    the encoder cannot render itself and hands to [default=str]; [s] is the
    result of [str(obj)].  A [dict] is its item list in insertion order (the
    keys of a Python [dict] are pairwise distinct). *)
Inductive pyvalue : Type :=
| VNone
| VBool (b : bool)
| VInt (n : Z)
| VStr (s : string)
| VList (elems : list pyvalue)
| VDict (items : list (string * pyvalue))
| VOther (as_str : string).

(** What [json.loads] builds. *)
Inductive jdata : Type :=
| JNull
| JBool (b : bool)
| JInt (n : Z)
| JStr (s : string)
| JList (elems : list jdata)
| JDict (items : list (string * jdata)).

(** The argument of [_serialize]: a plain value, an object exposing
    [model_dump()], or an object exposing only [dict()]. *)
Inductive snapshot_value : Type :=
| Plain (v : pyvalue)
| WithModelDump (dumped : pyvalue)
| WithDict (dumped : pyvalue).


(* ===================================================================== *)
(** ** json.dumps(value, indent=2, sort_keys=True, default=str) *)
(* ===================================================================== *)

Definition hex_digit (n : N) : ascii :=
  if (n <? 10)%N then ascii_of_N (48 + n) else ascii_of_N (87 + n).

(** ['\\u{0:04x}'.format(n)] *)
Definition hex4 (n : N) : text :=
  [hex_digit (n / 4096 mod 16); hex_digit (n / 256 mod 16);
   hex_digit (n / 16 mod 16); hex_digit (n mod 16)]%N.

(** [ESCAPE_ASCII] with [ESCAPE_DCT]: everything outside [' '..'~'], the
    quote and the backslash are escaped. *)
Definition escape_char (c : ascii) : text :=
  let n := N_of_ascii c in
  if ascii_eqb c dquote then [backslash; dquote]
  else if ascii_eqb c backslash then [backslash; backslash]
  else if (n =? 8)%N then [backslash; "b"%char]
  else if (n =? 12)%N then [backslash; "f"%char]
  else if (n =? 10)%N then [backslash; "n"%char]
  else if (n =? 13)%N then [backslash; "r"%char]
  else if (n =? 9)%N then [backslash; "t"%char]
  else if ((32 <=? n) && (n <=? 126))%N then [c]
  else backslash :: "u"%char :: hex4 n.

Definition encode_str (s : string) : text :=
  dquote :: flat_map escape_char (chars s) ++ [dquote].

Fixpoint uint_chars (d : Decimal.uint) : text :=
  match d with
  | Nil => []
  | D0 d => "0"%char :: uint_chars d
  | D1 d => "1"%char :: uint_chars d
  | D2 d => "2"%char :: uint_chars d
  | D3 d => "3"%char :: uint_chars d
  | D4 d => "4"%char :: uint_chars d
  | D5 d => "5"%char :: uint_chars d
  | D6 d => "6"%char :: uint_chars d
  | D7 d => "7"%char :: uint_chars d
  | D8 d => "8"%char :: uint_chars d
  | D9 d => "9"%char :: uint_chars d
  end.

(** [int.__repr__]: decimal digits, a minus sign for negative numbers. *)
Definition encode_int (n : Z) : text :=
  match n with
  | Z0 => ["0"%char]
  | Zpos p => uint_chars (Pos.to_uint p)
  | Zneg p => "-"%char :: uint_chars (Pos.to_uint p)
  end.

(** ['\n' + _indent * _current_indent_level] with [indent=2]. *)
Definition newline_indent (level : nat) : text :=
  newline :: repeat space (2 * level).

Definition item_separator : text := [","%char].
Definition key_separator : text := [":"%char; space].

Definition encode_item (kv : string * text) : text :=
  encode_str (fst kv) ++ key_separator ++ snd kv.

(** [_iterencode]: the pure-Python encoder used whenever [indent] is set.
    The items of a dict are written in the order of [sorted(dct.items())],
    the values one level deeper.  The keys of a dict being distinct, the
    sort compares keys only, so that sorting the items and then encoding
    them, as the source does, gives the text of encoding them and then
    sorting by key, as it is written here (the recursion is then on the
    items themselves). *)
Fixpoint iterencode (level : nat) (v : pyvalue) : text :=
  match v with
  | VNone => chars "null"
  | VBool true => chars "true"
  | VBool false => chars "false"
  | VInt n => encode_int n
  | VStr s => encode_str s
  | VOther s => encode_str s
  | VList [] => chars "[]"
  | VList elems =>
      "["%char :: newline_indent (S level)
      ++ join (item_separator ++ newline_indent (S level))
              (map (iterencode (S level)) elems)
      ++ newline_indent level ++ ["]"%char]
  | VDict [] => chars "{}"
  | VDict items =>
      "{"%char :: newline_indent (S level)
      ++ join (item_separator ++ newline_indent (S level))
              (map encode_item
                 (py_sorted fst
                    (map (fun kv => (fst kv, iterencode (S level) (snd kv)))
                         items)))
      ++ newline_indent level ++ ["}"%char]
  end.

Definition json_dumps (v : pyvalue) : string := str (iterencode 0 v).

(** [SnapshotHelper._serialize] *)
Definition _serialize (value : snapshot_value) : string :=
  match value with
  | WithModelDump dumped => json_dumps dumped
  | WithDict dumped => json_dumps dumped
  | Plain v => json_dumps v
  end.

(* ===================================================================== *)
(** ** json.loads *)
(* ===================================================================== *)

(** [WHITESPACE = ' \t\n\r'] *)
Definition is_ws (c : ascii) : bool :=
  let n := N_of_ascii c in
  ((n =? 32) || (n =? 9) || (n =? 10) || (n =? 13))%N.

Fixpoint skip_ws (cs : text) : text :=
  match cs with
  | c :: r => if is_ws c then skip_ws r else cs
  | [] => []
  end.

Definition is_digit (c : ascii) : bool :=
  let n := N_of_ascii c in ((48 <=? n) && (n <=? 57))%N.

Definition hex_value (c : ascii) : option N :=
  let n := N_of_ascii c in
  if ((48 <=? n) && (n <=? 57))%N then Some (n - 48)%N
  else if ((97 <=? n) && (n <=? 102))%N then Some (n - 87)%N
  else if ((65 <=? n) && (n <=? 70))%N then Some (n - 55)%N
  else None.

(** [_decode_uXXXX]: four hexadecimal digits. *)
Definition decode_uXXXX (h1 h2 h3 h4 : ascii) : option N :=
  a ← hex_value h1; b ← hex_value h2; c ← hex_value h3; d ← hex_value h4;
  Some (a * 4096 + b * 256 + c * 16 + d)%N.

(** [BACKSLASH]: the one-letter escapes. *)
Definition unescape (c : ascii) : option ascii :=
  if ascii_eqb c dquote then Some dquote
  else if ascii_eqb c backslash then Some backslash
  else if ascii_eqb c "/" then Some "/"%char
  else if ascii_eqb c "b" then Some "008"%char
  else if ascii_eqb c "f" then Some "012"%char
  else if ascii_eqb c "n" then Some "010"%char
  else if ascii_eqb c "r" then Some "013"%char
  else if ascii_eqb c "t" then Some "009"%char
  else None.

(** [scanstring] in strict mode, entered after the opening quote.  A
    literal control character, an unknown escape or a missing closing quote
    is a decode error; so is, in this embedding, an escape for a code point
    above 255. *)
Fixpoint scanstring (cs : text) : option (string * text) :=
  match cs with
  | [] => None
  | c :: r =>
      if ascii_eqb c dquote then Some (EmptyString, r)
      else if ascii_eqb c backslash then
        match r with
        | [] => None
        | e :: r1 =>
            if ascii_eqb e "u" then
              match r1 with
              | h1 :: h2 :: h3 :: h4 :: r2 =>
                  n ← decode_uXXXX h1 h2 h3 h4;
                  if (n <? 256)%N then
                    '(s, rest) ← scanstring r2;
                    Some (String (ascii_of_N n) s, rest)
                  else None
              | _ => None
              end
            else
              ch ← unescape e;
              '(s, rest) ← scanstring r1;
              Some (String ch s, rest)
        end
      else if (N_of_ascii c <? 32)%N then None
      else
        '(s, rest) ← scanstring r;
        Some (String c s, rest)
  end.

Definition digit_cons (c : ascii) (d : Decimal.uint) : Decimal.uint :=
  match N_of_ascii c with
  | 48 => D0 d | 49 => D1 d | 50 => D2 d | 51 => D3 d | 52 => D4 d
  | 53 => D5 d | 54 => D6 d | 55 => D7 d | 56 => D8 d | _ => D9 d
  end%N.

(** The longest run of decimal digits at the head of the input. *)
Fixpoint scan_digits (cs : text) : Decimal.uint * text :=
  match cs with
  | c :: r =>
      if is_digit c then
        let '(d, rest) := scan_digits r in (digit_cons c d, rest)
      else (Nil, cs)
  | [] => (Nil, [])
  end.

(** The integer part of [NUMBER_RE]: ["0"] or a digit run that does not
    start with ["0"]. *)
Definition scan_integer (cs : text) : option (Decimal.uint * text) :=
  match cs with
  | c :: r =>
      if ascii_eqb c "0" then Some (D0 Nil, r)
      else if is_digit c then Some (scan_digits cs)
      else None
  | [] => None
  end.

(** Does a fraction ([\.\d+]) or an exponent ([[eE][-+]?\d+]) follow?  Then
    the literal is a float. *)
Definition float_follows (cs : text) : bool :=
  match cs with
  | c :: d :: r =>
      if ascii_eqb c "." then is_digit d
      else if ascii_eqb c "e" || ascii_eqb c "E" then
        is_digit d ||
        ((ascii_eqb d "-" || ascii_eqb d "+") &&
         match r with e :: _ => is_digit e | [] => false end)
      else false
  | _ => false
  end.

(** [match_number]: an optional sign and an integer part; floats are not
    part of the embedding and reported like a decode error. *)
Definition scan_number (cs : text) : option (Z * text) :=
  match cs with
  | c :: r =>
      if ascii_eqb c "-" then
        '(d, rest) ← scan_integer r;
        if float_follows rest then None
        else Some (Z.of_int (Decimal.Neg d), rest)
      else
        '(d, rest) ← scan_integer cs;
        if float_follows rest then None
        else Some (Z.of_int (Decimal.Pos d), rest)
  | [] => None
  end.

Fixpoint strip_prefix (p cs : text) : option text :=
  match p, cs with
  | [], _ => Some cs
  | a :: p', c :: r => if ascii_eqb a c then strip_prefix p' r else None
  | _ :: _, [] => None
  end.

(** [dict(pairs)]: a later pair with the same key replaces the value and
    keeps the place of the first one. *)
Fixpoint dict_set {V} (k : string) (v : V) (d : list (string * V))
  : list (string * V) :=
  match d with
  | [] => [(k, v)]
  | (k', v') :: d' =>
      if String.eqb k k' then (k, v) :: d' else (k', v') :: dict_set k v d'
  end.

Definition dict_of_pairs {V} (pairs : list (string * V)) : list (string * V) :=
  fold_left (fun d kv => dict_set (fst kv) (snd kv) d) pairs [].

(** [scan_once], [JSONArray] and [JSONObject].  [fuel] bounds the nesting
    of the recursion; [json_loads] supplies enough for every input. *)
Fixpoint scan_once (fuel : nat) (cs : text) : option (jdata * text) :=
  match fuel with
  | O => None
  | S fuel =>
      match cs with
      | [] => None
      | c :: r =>
          if ascii_eqb c dquote then
            '(s, rest) ← scanstring r; Some (JStr s, rest)
          else if ascii_eqb c "{" then
            match skip_ws r with
            | c1 :: r1 =>
                if ascii_eqb c1 "}" then Some (JDict [], r1)
                else if ascii_eqb c1 dquote then
                  '(pairs, rest) ← scan_members fuel r1;
                  Some (JDict (dict_of_pairs pairs), rest)
                else None
            | [] => None
            end
          else if ascii_eqb c "[" then
            match skip_ws r with
            | c1 :: r1 =>
                if ascii_eqb c1 "]" then Some (JList [], r1)
                else
                  '(elems, rest) ← scan_elements fuel (c1 :: r1);
                  Some (JList elems, rest)
            | [] => None
            end
          else if ascii_eqb c "n" then
            rest ← strip_prefix (chars "ull") r; Some (JNull, rest)
          else if ascii_eqb c "t" then
            rest ← strip_prefix (chars "rue") r; Some (JBool true, rest)
          else if ascii_eqb c "f" then
            rest ← strip_prefix (chars "alse") r; Some (JBool false, rest)
          else
            '(n, rest) ← scan_number cs; Some (JInt n, rest)
      end
  end
with scan_elements (fuel : nat) (cs : text) : option (list jdata * text) :=
  match fuel with
  | O => None
  | S fuel =>
      '(v, r) ← scan_once fuel cs;
      match skip_ws r with
      | c1 :: r1 =>
          if ascii_eqb c1 "]" then Some ([v], r1)
          else if ascii_eqb c1 "," then
            '(vs, rest) ← scan_elements fuel (skip_ws r1);
            Some (v :: vs, rest)
          else None
      | [] => None
      end
  end
with scan_members (fuel : nat) (cs : text)
  : option (list (string * jdata) * text) :=
  match fuel with
  | O => None
  | S fuel =>
      '(key, r) ← scanstring cs;
      match skip_ws r with
      | c1 :: r1 =>
          if ascii_eqb c1 ":" then
            '(v, r2) ← scan_once fuel (skip_ws r1);
            match skip_ws r2 with
            | c3 :: r3 =>
                if ascii_eqb c3 "}" then Some ([(key, v)], r3)
                else if ascii_eqb c3 "," then
                  match skip_ws r3 with
                  | c4 :: r4 =>
                      if ascii_eqb c4 dquote then
                        '(kvs, rest) ← scan_members fuel r4;
                        Some ((key, v) :: kvs, rest)
                      else None
                  | [] => None
                  end
                else None
            | [] => None
            end
          else None
      | [] => None
      end
  end.

(** [json.loads]: one value, surrounded by optional whitespace, and nothing
    else. *)
Definition json_loads (s : string) : option jdata :=
  let cs := chars s in
  '(v, rest) ← scan_once (2 * length cs + 2) (skip_ws cs);
  match skip_ws rest with
  | [] => Some v
  | _ :: _ => None
  end.

(** [SnapshotHelper._deserialize] *)
Definition _deserialize (json_str : string) : option jdata :=
  json_loads json_str.

(** Python's [==] on decoded JSON data.  [bool] is a subclass of [int], so
    [True == 1]; lists compare element-wise; dicts compare as mappings,
    whatever the order of their items. *)
Fixpoint dict_get {V} (k : string) (d : list (string * V)) : option V :=
  match d with
  | [] => None
  | (k', v) :: d' => if String.eqb k k' then Some v else dict_get k d'
  end.

Definition int_of_bool (b : bool) : Z := if b then 1 else 0.

Fixpoint py_eq (a b : jdata) {struct a} : bool :=
  match a with
  | JNull => match b with JNull => true | _ => false end
  | JBool x =>
      match b with
      | JBool y => Bool.eqb x y
      | JInt m => int_of_bool x =? m
      | _ => false
      end
  | JInt n =>
      match b with
      | JInt m => n =? m
      | JBool y => n =? int_of_bool y
      | _ => false
      end
  | JStr s => match b with JStr t => String.eqb s t | _ => false end
  | JList xs =>
      match b with
      | JList ys =>
          (fix all2 (xs ys : list jdata) {struct xs} : bool :=
             match xs, ys with
             | [], [] => true
             | x :: xs', y :: ys' => py_eq x y && all2 xs' ys'
             | _, _ => false
             end) xs ys
      | _ => false
      end
  | JDict ps =>
      match b with
      | JDict qs =>
          (length ps =? length qs)%nat &&
          (fix all (ps : list (string * jdata)) : bool :=
             match ps with
             | [] => true
             | (k, v) :: ps' =>
                 match dict_get k qs with
                 | Some w => py_eq v w
                 | None => false
                 end && all ps'
             end) ps
      | _ => false
      end
  end.

(* ===================================================================== *)
(** ** Exceptions and effects *)
(* ===================================================================== *)

(** The exception classes the harness raises or distinguishes.  Everything
    up to [OtherException] derives from [Exception]; [Skipped] (raised by
    [pytest.skip]) and [NonException] ([CancelledError],
    [KeyboardInterrupt], ...) derive from [BaseException] only. *)
Inductive exn_class : Type :=
| AssertionError
| ConnectionError
| RuntimeError
| TimeoutError
| JSONDecodeError
| FileNotFoundError
| OtherException (name : string)
| Skipped
| NonException (name : string).

(** An exception: its class, [str(e)] and [e.__cause__]. *)
Inductive exn : Type :=
| Exn (cls : exn_class) (msg : string) (cause : option exn).

Definition exn_cls (e : exn) : exn_class := let 'Exn c _ _ := e in c.
Definition exn_str (e : exn) : string := let 'Exn _ m _ := e in m.
Definition exn_cause (e : exn) : option exn := let 'Exn _ _ c := e in c.

(** [isinstance(e, Exception)] *)
Definition is_Exception (e : exn) : bool :=
  match exn_cls e with
  | Skipped | NonException _ => false
  | _ => true
  end.

(** [isinstance(e, AssertionError)] *)
Definition is_AssertionError (e : exn) : bool :=
  match exn_cls e with
  | AssertionError => true
  | _ => false
  end.

Inductive result (A : Type) : Type :=
| Ok (a : A)
| Raise (e : exn).
Arguments Ok {A} a.
Arguments Raise {A} e.

(** A computation over a mutable state [S] that returns or raises. *)
Definition M (S A : Type) : Type := S -> result A * S.

Definition ret {S A} (a : A) : M S A := fun s => (Ok a, s).
Definition raise {S A} (e : exn) : M S A := fun s => (Raise e, s).
Definition bind {S A B} (m : M S A) (k : A -> M S B) : M S B :=
  fun s => match m s with
           | (Ok a, s') => k a s'
           | (Raise e, s') => (Raise e, s')
           end.
Definition get {S} : M S S := fun s => (Ok s, s).
Definition modify {S} (f : S -> S) : M S unit := fun s => (Ok tt, f s).

(** [try: m  except C1 as e: h1 e  except C2 as e: h2 e ...]: the first
    clause whose class test accepts the exception handles it. *)
Fixpoint dispatch {S A} (clauses : list ((exn -> bool) * (exn -> M S A)))
    (e : exn) : M S A :=
  match clauses with
  | [] => fun s => (Raise e, s)
  | (catches, handler) :: rest =>
      if catches e then handler e else dispatch rest e
  end.

Definition try_excepts {S A} (m : M S A)
    (clauses : list ((exn -> bool) * (exn -> M S A))) : M S A :=
  fun s => match m s with
           | (Raise e, s') => dispatch clauses e s'
           | done => done
           end.

Definition try_except {S A} (m : M S A) (catches : exn -> bool)
    (handler : exn -> M S A) : M S A :=
  try_excepts m [(catches, handler)].

(** [try: m  finally: cleanup] *)
Definition try_finally {S A} (m : M S A) (cleanup : M S unit) : M S A :=
  fun s => match m s with
           | (r, s') =>
               match cleanup s' with
               | (Ok _, s'') => (r, s'')
               | (Raise e, s'') => (Raise e, s'')
               end
           end.

Notation "'let*' x ':=' m 'in' k" := (bind m (fun x => k))
  (at level 10, x pattern, m at level 100, k at level 200).
Notation "m ';;' k" := (bind m (fun _ => k))
  (at level 100, k at level 200, right associativity).

(* ===================================================================== *)
(** ** client.py: MockMCPClient *)
(* ===================================================================== *)

(** The two scoped resources a connection acquires, in this order: the
    [stdio_client] context (server process and its pipes) and the
    [ClientSession] context. *)
Inductive resource : Type :=
| Transport
| SessionScope.

(** [Entered r]: entering the scope succeeded; [Exited r]: its exit
    callback was run, whether it raised or not. *)
Inductive event : Type :=
| Entered (r : resource)
| Exited (r : resource).

Inductive log_level : Type := DEBUG | INFO | WARNING | ERROR.

(** What the harness does to the outside: the scopes it enters and exits,
    in order of occurrence, the records it logs, and the time it spends
    waiting (in clock ticks). *)
Record world : Type := mk_world {
  trace : list event;
  logs : list (log_level * string);
  clock : Z
}.

Definition stream := nat.
Definition session_handle := nat.

Record Tool : Type := mk_tool { tool_name : string; tool_description : string }.
Definition CallToolResult := list string.

(** The behaviour of the protocol SDK and the server during one operation:
    the outcome of each awaited primitive.  An exit that raises is [Some]. *)
Record sdk : Type := mk_sdk {
  stdio_client_enter : result (stream * stream);
  session_enter : result session_handle;
  session_initialize : result unit;
  session_exit : option exn;
  stdio_client_exit : option exn;
  list_tools_time : Z;
  list_tools_reply : result (list Tool);
  call_tool_reply : result CallToolResult
}.

Record MockMCPClient : Type := mk_client {
  _session : option session_handle;
  _read_stream : option stream;
  _write_stream : option stream;
  _exit_stack : option (list resource)
}.

(** [MockMCPClient.__init__] *)
Definition new_client : MockMCPClient :=
  {| _session := None; _read_stream := None; _write_stream := None;
     _exit_stack := None |}.

(** Every state is an object paired with the world it acts on. *)
Definition client_state : Type := MockMCPClient * world.

Definition log {X} (lvl : log_level) (msg : string) : M (X * world) unit :=
  modify (fun '(x, w) =>
    (x, {| trace := trace w; logs := logs w ++ [(lvl, msg)];
           clock := clock w |})).

Definition emit {X} (ev : event) : M (X * world) unit :=
  modify (fun '(x, w) =>
    (x, {| trace := trace w ++ [ev]; logs := logs w; clock := clock w |})).

Definition sleep {X} (ticks : Z) : M (X * world) unit :=
  modify (fun '(x, w) =>
    (x, {| trace := trace w; logs := logs w; clock := clock w + ticks |})).

Definition update_client (f : MockMCPClient -> MockMCPClient)
  : M client_state unit :=
  modify (fun '(c, w) => (f c, w)).

Definition await {A} (r : result A) : M client_state A :=
  match r with
  | Ok a => ret a
  | Raise e => raise e
  end.

Definition set_session (v : option session_handle) (c : MockMCPClient) :=
  {| _session := v; _read_stream := _read_stream c;
     _write_stream := _write_stream c; _exit_stack := _exit_stack c |}.
Definition set_streams (rd wr : option stream) (c : MockMCPClient) :=
  {| _session := _session c; _read_stream := rd; _write_stream := wr;
     _exit_stack := _exit_stack c |}.
Definition set_exit_stack (v : option (list resource)) (c : MockMCPClient) :=
  {| _session := _session c; _read_stream := _read_stream c;
     _write_stream := _write_stream c; _exit_stack := v |}.

(** [AsyncExitStack.enter_async_context]: the scope is pushed only when
    entering it succeeded. *)
Definition enter_async_context {A} (r : resource) (entering : result A)
  : M client_state A :=
  let* a := await entering in
  emit (Entered r) ;;
  update_client (fun c =>
    set_exit_stack (Some (r :: default [] (_exit_stack c))) c) ;;
  ret a.

Definition exit_outcome (k : sdk) (r : resource) : option exn :=
  match r with
  | Transport => stdio_client_exit k
  | SessionScope => session_exit k
  end.

(** The unwinding loop of [AsyncExitStack.aclose]: every callback is run,
    last pushed first; an exception raised by one of them is kept pending
    while the remaining ones run, and the most recent one is raised at the
    end. *)
Fixpoint unwind (k : sdk) (stack : list resource) (pending : option exn)
  : M client_state unit :=
  match stack with
  | [] =>
      match pending with
      | Some e => raise e
      | None => ret tt
      end
  | r :: stack' =>
      emit (Exited r) ;;
      update_client (set_exit_stack (Some stack')) ;;
      unwind k stack'
        (match exit_outcome k r with Some e => Some e | None => pending end)
  end.

Definition aclose (k : sdk) : M client_state unit :=
  let* (c, _) := get in
  unwind k (default [] (_exit_stack c)) None.

Definition is_some {A} (o : option A) : bool :=
  match o with Some _ => true | None => false end.

(** [MockMCPClient.connect] *)
Definition connect (k : sdk) : M client_state unit :=
  let* (c, _) := get in
  if is_some (_session c) then
    log WARNING "Client is already connected"
  else
    try_except
      (update_client (set_exit_stack (Some [])) ;;
       let* (read, write) :=
         enter_async_context Transport (stdio_client_enter k) in
       update_client (set_streams (Some read) (Some write)) ;;
       let* session :=
         enter_async_context SessionScope (session_enter k) in
       update_client (set_session (Some session)) ;;
       await (session_initialize k) ;;
       log DEBUG "MockMCPClient connected successfully")
      is_Exception
      (fun e =>
         let* (c, _) := get in
         (if is_some (_exit_stack c) then
            aclose k ;;
            update_client (set_exit_stack None)
          else ret tt) ;;
         update_client (set_session None) ;;
         update_client (set_streams None None) ;;
         log ERROR ("Failed to connect to MCP server: " +:+ exn_str e) ;;
         raise (Exn ConnectionError
                  ("Could not connect to MCP server: " +:+ exn_str e)
                  (Some e))).

(** [MockMCPClient.disconnect] *)
Definition disconnect (k : sdk) : M client_state unit :=
  let* (c, _) := get in
  (if is_some (_exit_stack c) then
     aclose k ;;
     update_client (set_exit_stack None)
   else ret tt) ;;
  update_client (set_session None) ;;
  update_client (set_streams None None) ;;
  log DEBUG "MockMCPClient disconnected".

(** [MockMCPClient.is_connected] *)
Definition is_connected (c : MockMCPClient) : bool := is_some (_session c).

(** [MockMCPClient._ensure_connected] *)
Definition _ensure_connected : M client_state session_handle :=
  let* (c, _) := get in
  match _session c with
  | None =>
      raise (Exn RuntimeError
        "Client is not connected. Use 'async with MockMCPClient(...)' or call connect()"
        None)
  | Some session => ret session
  end.

(** [MockMCPClient.list_tools] *)
Definition list_tools (k : sdk) : M client_state (list Tool) :=
  let* session := _ensure_connected in
  sleep (list_tools_time k) ;;
  await (list_tools_reply k).

(** [MockMCPClient.call_tool] *)
Definition call_tool (k : sdk) (name : string) : M client_state CallToolResult :=
  let* session := _ensure_connected in
  try_except
    (let* result := await (call_tool_reply k) in
     log DEBUG ("Tool '" +:+ name +:+ "' called successfully") ;;
     ret result)
    is_Exception
    (fun e =>
       log ERROR ("Tool '" +:+ name +:+ "' call failed: " +:+ exn_str e) ;;
       raise e).

(** The scopes that were entered and not exited since. *)
Fixpoint remove_first (r : resource) (l : list resource) : list resource :=
  match l with
  | [] => []
  | x :: l' =>
      match r, x with
      | Transport, Transport | SessionScope, SessionScope => l'
      | _, _ => x :: remove_first r l'
      end
  end.

Definition live_handles (tr : list event) : list resource :=
  fold_left (fun live ev =>
               match ev with
               | Entered r => r :: live
               | Exited r => remove_first r live
               end) tr [].

(* ===================================================================== *)
(** ** server.py: MCPTestServer and MCPTestServerFactory *)
(* ===================================================================== *)

Record MCPTestServer : Type := mk_server {
  command : string;
  args : list string;
  timeout : Z;
  _client : option MockMCPClient
}.

(** [MCPTestServer.__init__] *)
Definition new_server (cmd : string) (arguments : list string) (t : Z)
  : MCPTestServer :=
  {| command := cmd; args := arguments; timeout := t; _client := None |}.

Definition server_state : Type := MCPTestServer * world.

Definition set_client (v : option MockMCPClient) (s : MCPTestServer) :=
  {| command := command s; args := args s; timeout := timeout s;
     _client := v |}.

Definition update_server (f : MCPTestServer -> MCPTestServer)
  : M server_state unit :=
  modify (fun '(s, w) => (f s, w)).

(** Run a method of the client object that [self._client] refers to. *)
Definition on_client {A} (m : M client_state A) : M server_state A :=
  fun '(s, w) =>
    match _client s with
    | Some c =>
        let '(r, (c', w')) := m (c, w) in (r, (set_client (Some c') s, w'))
    | None =>
        (Raise (Exn (OtherException "AttributeError")
                  "'NoneType' object has no attribute" None), (s, w))
    end.

(** [MCPTestServer.stop] *)
Definition stop (k : sdk) : M server_state unit :=
  let* (s, _) := get in
  if is_some (_client s) then
    try_finally
      (try_except
         (on_client (disconnect k) ;;
          log INFO "MCP test server stopped")
         is_Exception
         (fun e =>
            log WARNING ("Error stopping MCP test server: " +:+ exn_str e)))
      (update_server (set_client None))
  else ret tt.

(** [MCPTestServer.start] *)
Definition start (k : sdk) : M server_state unit :=
  let* (s, _) := get in
  log INFO ("Starting MCP test server: " +:+ command s +:+ " "
            +:+ str (join [space] (map chars (args s)))) ;;
  try_except
    (update_server (set_client (Some new_client)) ;;
     on_client (connect k) ;;
     log INFO "MCP test server started successfully")
    is_Exception
    (fun e =>
       log ERROR ("Failed to start MCP test server: " +:+ exn_str e) ;;
       stop k ;;
       raise (Exn RuntimeError
                ("Could not start MCP server: " +:+ exn_str e) (Some e))).

(** [MCPTestServer.get_client] *)
Definition get_client : M server_state MockMCPClient :=
  let* (s, _) := get in
  match _client s with
  | Some c =>
      if negb (is_connected c) then
        raise (Exn RuntimeError
          "Server is not started. Use 'async with MCPTestServer(...)' or call start()"
          None)
      else ret c
  | None =>
      raise (Exn RuntimeError
        "Server is not started. Use 'async with MCPTestServer(...)' or call start()"
        None)
  end.

(** [MCPTestServer.is_running] *)
Definition is_running (s : MCPTestServer) : bool :=
  match _client s with
  | Some c => is_connected c
  | None => false
  end.

(** [MCPTestServer.restart] *)
Definition restart (k : sdk) : M server_state unit :=
  log INFO "Restarting MCP test server" ;;
  stop k ;;
  start k.

(** [MCPTestServer.wait_for_ready] *)
Definition wait_for_ready (k : sdk) (timeout_arg : option Z)
  : M server_state unit :=
  let* (s, _) := get in
  let timeout := match timeout_arg with
                 | None => timeout s
                 | Some t => t
                 end in
  try_except
    (let* client := get_client in
     on_client (list_tools k) ;;
     log DEBUG "MCP test server is ready")
    is_Exception
    (fun e =>
       raise (Exn TimeoutError
                ("Server did not become ready: " +:+ exn_str e) (Some e))).

(** The factory keeps references to the servers it created; the server
    objects themselves are shared with whoever asked for them.  [created]
    holds the objects, [_servers] the references (indices into [created]). *)
Record MCPTestServerFactory : Type := mk_factory {
  f_command : string;
  f_args : list string;
  f_timeout : Z;
  created : list MCPTestServer;
  _servers : list nat
}.

Definition factory_state : Type := MCPTestServerFactory * world.

Definition set_created (objs : list MCPTestServer) (f : MCPTestServerFactory) :=
  {| f_command := f_command f; f_args := f_args f; f_timeout := f_timeout f;
     created := objs; _servers := _servers f |}.
Definition set_servers (refs : list nat) (f : MCPTestServerFactory) :=
  {| f_command := f_command f; f_args := f_args f; f_timeout := f_timeout f;
     created := created f; _servers := refs |}.

(** [MCPTestServerFactory.create]: returns the reference of the new server. *)
Definition create : M factory_state nat :=
  let* (f, _) := get in
  let ref := length (created f) in
  modify (fun '(f, w) =>
    (set_servers (_servers f ++ [ref])
       (set_created
          (created f ++ [new_server (f_command f) (f_args f) (f_timeout f)])
          f), w)) ;;
  ret ref.

(** Run a method of the server object behind a reference. *)
Definition on_server {A} (ref : nat) (m : M server_state A)
  : M factory_state A :=
  fun '(f, w) =>
    match created f !! ref with
    | Some s =>
        let '(r, (s', w')) := m (s, w) in
        (r, (set_created (<[ref := s']> (created f)) f, w'))
    | None =>
        (Raise (Exn (OtherException "ReferenceError") "no such server" None),
         (f, w))
    end.

Fixpoint for_each {S A} (l : list A) (body : A -> M S unit) : M S unit :=
  match l with
  | [] => ret tt
  | x :: l' => body x ;; for_each l' body
  end.

(** [MCPTestServerFactory.stop_all]; server [ref] talks to [k ref]. *)
Definition stop_all (k : nat -> sdk) : M factory_state unit :=
  let* (f, _) := get in
  for_each (_servers f) (fun ref =>
    try_except
      (on_server ref (stop (k ref)))
      is_Exception
      (fun e => log WARNING ("Error stopping server: " +:+ exn_str e))) ;;
  modify (fun '(f, w) => (set_servers [] f, w)).

(* ===================================================================== *)
(** ** assertions.py: assert_tool_returns_error *)
(* ===================================================================== *)

(** [needle in haystack] for [str] *)
Fixpoint contains (needle haystack : string) : bool :=
  String.prefix needle haystack ||
  match haystack with
  | EmptyString => false
  | String _ rest => contains needle rest
  end.

(** Truthiness of an optional [str]: neither [None] nor empty. *)
Definition truthy (o : option string) : bool :=
  match o with
  | Some (String _ _) => true
  | _ => false
  end.

Definition succeeded_message (tool : string) : string :=
  "Tool '" +:+ tool +:+ "' was expected to raise an error but succeeded".

Definition mismatch_message (tool expected : string) (e : exn) : string :=
  "Tool '" +:+ tool +:+ "' raised error but message doesn't match." +:+
  str [newline] +:+ "Expected substring: " +:+ expected +:+
  str [newline] +:+ "Actual error: " +:+ exn_str e.

(** [assert_tool_returns_error] *)
Definition assert_tool_returns_error (k : sdk) (tool : string)
    (error_message : option string) : M client_state exn :=
  try_excepts
    (call_tool k tool ;;
     raise (Exn AssertionError (succeeded_message tool) None))
    [ (is_AssertionError, fun e => raise e);
      (is_Exception, fun e =>
         if truthy error_message
            && negb (contains (default EmptyString error_message) (exn_str e))
         then raise (Exn AssertionError
                       (mismatch_message tool
                          (default EmptyString error_message) e)
                       (Some e))
         else ret e) ].

(* ===================================================================== *)
(** ** snapshot.py: SnapshotHelper *)
(* ===================================================================== *)

(** The content of [snapshot_dir]: file name to file text. *)
Abbreviation files := (gmap string string).

Record SnapshotHelper : Type := mk_helper {
  node_name : string;          (* request.node.name *)
  update_snapshots : bool      (* --mcp-update-snapshots *)
}.

(** [name.split("[")[0]] *)
Fixpoint before_bracket (name : string) : string :=
  match name with
  | EmptyString => EmptyString
  | String c rest =>
      if ascii_eqb c "[" then EmptyString else String c (before_bracket rest)
  end.

Definition test_identity (h : SnapshotHelper) : string :=
  before_bracket (node_name h).

(** [SnapshotHelper._get_snapshot_path], as a file name in [snapshot_dir]. *)
Definition _get_snapshot_path (h : SnapshotHelper) (snapshot_name : string)
  : string :=
  test_identity h +:+ "__" +:+ snapshot_name +:+ ".json".

(** [str.rfind] for a single character. *)
Fixpoint rfind (c : ascii) (s : string) : option nat :=
  match s with
  | EmptyString => None
  | String a rest =>
      match rfind c rest with
      | Some i => Some (S i)
      | None => if ascii_eqb a c then Some O else None
      end
  end.

(** [PurePath.suffix]: from the last dot of the name, unless that dot is
    its first or its last character. *)
Definition path_suffix (name : string) : string :=
  match rfind "." name with
  | Some i =>
      if ((0 <? i) && (i <? String.length name - 1))%nat
      then String.substring i (String.length name - i) name
      else EmptyString
  | None => EmptyString
  end.

(** [PurePath.stem] *)
Definition path_stem (name : string) : string :=
  match rfind "." name with
  | Some i =>
      if ((0 <? i) && (i <? String.length name - 1))%nat
      then String.substring 0 i name
      else name
  | None => name
  end.

(** [PurePath.with_suffix] *)
Definition with_suffix (name suffix : string) : string :=
  let old_suffix := path_suffix name in
  match old_suffix with
  | EmptyString => name +:+ suffix
  | _ =>
      String.substring 0 (String.length name - String.length old_suffix) name
      +:+ suffix
  end.

(** [fnmatch] for a pattern without bracket expressions: [*] stands for any
    run of characters, [?] for one character.  The pattern of
    [list_snapshots] starts with a test identity, which holds no ["["]. *)
Fixpoint glob_match (pattern : string) : string -> bool :=
  match pattern with
  | EmptyString =>
      fun name => match name with EmptyString => true | _ => false end
  | String p pattern' =>
      if ascii_eqb p "*" then
        fix star (name : string) : bool :=
          glob_match pattern' name ||
          match name with
          | EmptyString => false
          | String _ name' => star name'
          end
      else if ascii_eqb p "?" then
        fun name =>
          match name with
          | EmptyString => false
          | String _ name' => glob_match pattern' name'
          end
      else
        fun name =>
          match name with
          | EmptyString => false
          | String c name' => ascii_eqb p c && glob_match pattern' name'
          end
  end.

(** [Path.glob]: the names in the directory that match. *)
Definition glob (fs : files) (pattern : string) : list string :=
  filter (fun name => glob_match pattern name = true) (elements (dom fs)).

(** [s.replace(old, "")] for a non-empty [old]: every occurrence, left to
    right, is dropped.  [skip] counts the characters of an occurrence that
    are still to be dropped. *)
Fixpoint remove_all_from (old : string) (skip : nat) (s : string) : string :=
  match s with
  | EmptyString => EmptyString
  | String c rest =>
      match skip with
      | S n => remove_all_from old n rest
      | O =>
          if String.prefix old s
          then remove_all_from old (String.length old - 1) rest
          else String c (remove_all_from old O rest)
      end
  end.

Definition remove_all (old s : string) : string := remove_all_from old 0 s.

Definition path_exists (fs : files) (path : string) : bool :=
  is_some (fs !! path).

Definition read_text (path : string) : M files string :=
  let* fs := get in
  match fs !! path with
  | Some t => ret t
  | None => raise (Exn FileNotFoundError path None)
  end.

Definition write_text (path content : string) : M files unit :=
  modify (fun fs => <[path := content]> fs).

Definition unlink (path : string) : M files unit :=
  modify (fun fs => delete path fs).

(** [pytest.skip(msg)] *)
Definition pytest_skip {S A} (msg : string) : M S A :=
  raise (Exn Skipped msg None).

(** [_deserialize], raising where [json.loads] does. *)
Definition deserialize (json_str : string) : M files jdata :=
  match _deserialize json_str with
  | Some d => ret d
  | None => raise (Exn JSONDecodeError "Expecting value" None)
  end.

Definition nl : string := str [newline].

Definition snapshot_mismatch_message
    (snapshot_name expected_json actual_json : string) : string :=
  "Snapshot mismatch for '" +:+ snapshot_name +:+ "'." +:+ nl +:+
  "Expected:" +:+ nl +:+ expected_json +:+ nl +:+ nl +:+
  "Actual:" +:+ nl +:+ actual_json +:+ nl +:+ nl +:+
  "To update snapshots, run with --mcp-update-snapshots".

Definition text_mismatch_message
    (snapshot_name expected_text actual_text : string) : string :=
  "Text snapshot mismatch for '" +:+ snapshot_name +:+ "'." +:+ nl +:+
  "Expected:" +:+ nl +:+ expected_text +:+ nl +:+ nl +:+
  "Actual:" +:+ nl +:+ actual_text +:+ nl +:+ nl +:+
  "To update snapshots, run with --mcp-update-snapshots".

Definition should_update (h : SnapshotHelper) (update : option bool) : bool :=
  match update with
  | Some u => u
  | None => update_snapshots h
  end.

(** [SnapshotHelper.assert_match] *)
Definition assert_match (h : SnapshotHelper) (value : snapshot_value)
    (snapshot_name : string) (update : option bool) : M files unit :=
  let snapshot_path := _get_snapshot_path h snapshot_name in
  let actual_json := _serialize value in
  let* fs := get in
  if should_update h update || negb (path_exists fs snapshot_path) then
    write_text snapshot_path actual_json ;;
    if should_update h update
    then pytest_skip ("Updated snapshot: " +:+ snapshot_name)
    else ret tt
  else
    let* expected_json := read_text snapshot_path in
    let* expected := deserialize expected_json in
    let* actual := deserialize actual_json in
    if negb (py_eq actual expected) then
      raise (Exn AssertionError
               (snapshot_mismatch_message snapshot_name expected_json
                  actual_json) None)
    else ret tt.

(** [SnapshotHelper.assert_match_text] *)
Definition assert_match_text (h : SnapshotHelper) (text_value : string)
    (snapshot_name : string) (update : option bool) : M files unit :=
  let snapshot_path :=
    with_suffix (_get_snapshot_path h snapshot_name) ".txt" in
  let* fs := get in
  if should_update h update || negb (path_exists fs snapshot_path) then
    write_text snapshot_path text_value ;;
    if should_update h update
    then pytest_skip ("Updated snapshot: " +:+ snapshot_name)
    else ret tt
  else
    let* expected_text := read_text snapshot_path in
    if negb (String.eqb text_value expected_text) then
      raise (Exn AssertionError
               (text_mismatch_message snapshot_name expected_text text_value)
               None)
    else ret tt.

(** [SnapshotHelper.get_snapshot]; [None] is the absent-marker. *)
Definition get_snapshot (h : SnapshotHelper) (snapshot_name : string)
  : M files (option jdata) :=
  let snapshot_path := _get_snapshot_path h snapshot_name in
  let* fs := get in
  if negb (path_exists fs snapshot_path) then ret None
  else
    let* json_str := read_text snapshot_path in
    let* d := deserialize json_str in
    ret (Some d).

(** [SnapshotHelper.delete_snapshot] *)
Definition delete_snapshot (h : SnapshotHelper) (snapshot_name : string)
  : M files unit :=
  let snapshot_path := _get_snapshot_path h snapshot_name in
  let* fs := get in
  if path_exists fs snapshot_path then unlink snapshot_path else ret tt.

(** [SnapshotHelper.list_snapshots] *)
Definition list_snapshots (h : SnapshotHelper) : M files (list string) :=
  let test_name := test_identity h in
  let pattern := test_name +:+ "__*.json" in
  let* fs := get in
  ret (py_sorted id
         (map (fun path => remove_all (test_name +:+ "__") (path_stem path))
              (glob fs pattern))).

(* ===================================================================== *)
(** ** client.py: get_tool and the context-manager protocol *)
(* ===================================================================== *)

(** [MockMCPClient.get_tool] *)
Definition get_tool (k : sdk) (name : string) : M client_state (option Tool) :=
  let* tools := list_tools k in
  ret (find (fun tool => String.eqb (tool_name tool) name) tools).

(** [async with MockMCPClient(...) as client: body], also the scope of
    [create_mock_client]: [__aenter__] connects, [__aexit__] disconnects on
    every way out of the body and lets an exception of the body through. *)
Definition client_context {A} (k : sdk) (body : M client_state A)
  : M client_state A :=
  connect k ;;
  try_finally body (disconnect k).

(* ===================================================================== *)
(** ** server.py: the context-manager protocol *)
(* ===================================================================== *)

(** [async with MCPTestServer(...) as server: body]: [__aenter__] starts,
    [__aexit__] stops on every way out of the body. *)
Definition server_context {A} (k : sdk) (body : M server_state A)
  : M server_state A :=
  start k ;;
  try_finally body (stop k).

(* ===================================================================== *)
(** ** assertions.py: the tool list and the tool output *)
(* ===================================================================== *)

(** [', '.join(names)] *)
Definition comma_join (names : list string) : string :=
  str (join (chars ", ") (map chars names)).

(** [name in names] for a list of [str] *)
Definition str_in (name : string) (names : list string) : bool :=
  existsb (String.eqb name) names.

Definition tool_not_found_message (tool : string) (names : list string)
  : string :=
  "Tool '" +:+ tool +:+ "' not found. Available tools: " +:+ comma_join names.

(** [assert_tool_exists].  [next] on an exhausted generator raises
    [StopIteration], which a coroutine turns into a [RuntimeError]. *)
Definition assert_tool_exists (k : sdk) (name : string) : M client_state Tool :=
  let* tools := list_tools k in
  let tool_names := map tool_name tools in
  if negb (str_in name tool_names) then
    raise (Exn AssertionError (tool_not_found_message name tool_names) None)
  else
    match find (fun t => String.eqb (tool_name t) name) tools with
    | Some t => ret t
    | None =>
        raise (Exn RuntimeError "coroutine raised StopIteration"
                 (Some (Exn (OtherException "StopIteration") EmptyString None)))
    end.

(** [names.count(name)] *)
Definition count (name : string) (names : list string) : nat :=
  length (List.filter (String.eqb name) names).

(** [assert_tools_have_unique_names].  The elements of [set(tool_names)]
    are the names without repetitions; [set_iter] is the order in which the
    process iterates over a set of [str] (it depends on the hash seed). *)
Definition assert_tools_have_unique_names
    (set_iter : list string -> list string) (k : sdk) : M client_state unit :=
  let* tools := list_tools k in
  let tool_names := map tool_name tools in
  let unique_names := remove_dups tool_names in
  if negb (length tool_names =? length unique_names)%nat then
    let duplicates :=
      List.filter (fun name => (1 <? count name tool_names)%nat) tool_names in
    raise (Exn AssertionError
             ("Duplicate tool names found: " +:+ comma_join (set_iter duplicates))
             None)
  else ret tt.

(** How Python renders the objects that go into the messages of
    [assert_tool_output_matches]: [str(result)] for the result object and
    [str(value)] for a value. *)
Record formatter : Type := mk_formatter {
  str_result : CallToolResult -> string;
  py_str : jdata -> string
}.

(** [type(value)] in an f-string *)
Definition type_str (d : jdata) : string :=
  "<class '" +:+
  match d with
  | JNull => "NoneType"
  | JBool _ => "bool"
  | JInt _ => "int"
  | JStr _ => "str"
  | JList _ => "list"
  | JDict _ => "dict"
  end +:+ "'>".

(** The loop over [expected.items()] of the partial comparison. *)
Fixpoint check_items (F : formatter) (actual : list (string * jdata))
    (expected_items : list (string * jdata)) : result unit :=
  match expected_items with
  | [] => Ok tt
  | (key, value) :: rest =>
      match dict_get key actual with
      | None =>
          Raise (Exn AssertionError
                   ("Expected key '" +:+ key +:+
                    "' not found in result. Actual: " +:+
                    py_str F (JDict actual)) None)
      | Some got =>
          if negb (py_eq got value) then
            Raise (Exn AssertionError
                     ("Expected " +:+ key +:+ "=" +:+ py_str F value +:+
                      ", got " +:+ key +:+ "=" +:+ py_str F got) None)
          else check_items F actual rest
      end
  end.

(** [assert_tool_output_matches].  The content of the result is the list of
    the texts of its items (items without a [text] attribute are outside
    the embedding); [expected] ranges over the values [json.loads] can
    build.  Where the text is no JSON document the comparison goes on with
    the text itself. *)
Definition assert_tool_output_matches (F : formatter) (res : CallToolResult)
    (expected : jdata) (partial : bool) : result unit :=
  match res with
  | [] =>
      Raise (Exn AssertionError
               ("Tool returned no content. Result: " +:+ str_result F res) None)
  | _ =>
      let actual :=
        match res with
        | [text] => JStr text
        | _ => JList (map JStr res)
        end in
      if partial then
        match expected, actual with
        | JDict expected_items, JDict actual_items =>
            check_items F actual_items expected_items
        | JStr e, JStr a =>
            if negb (contains e a) then
              Raise (Exn AssertionError
                       ("Expected substring '" +:+ e +:+ "' not found in '" +:+
                        a +:+ "'") None)
            else Ok tt
        | _, _ =>
            Raise (Exn AssertionError
                     ("Partial matching not supported for types " +:+
                      type_str expected +:+ " and " +:+ type_str actual) None)
        end
      else
        let actual :=
          match expected, actual with
          | JDict _, JStr a | JList _, JStr a =>
              match json_loads a with
              | Some decoded => decoded
              | None => actual
              end
          | _, _ => actual
          end in
        if negb (py_eq actual expected) then
          Raise (Exn AssertionError
                   ("Tool output mismatch." +:+ nl +:+
                    "Expected: " +:+ py_str F expected +:+ nl +:+
                    "Actual: " +:+ py_str F actual) None)
        else Ok tt
  end.

(* ===================================================================== *)
(** * Notions used in the statements *)
(* ===================================================================== *)

(** *** Snapshot outcomes and decoded values *)


(** What may follow an encoded value: the end of the text, a comma or the
    line break before the closing bracket. *)
Definition delimited (rest : text) : Prop :=
  match rest with
  | [] => True
  | c :: _ => c = ","%char \/ c = newline
  end.

(** The data [json.loads] builds from the text [json.dumps] wrote. *)
Fixpoint to_jdata (v : pyvalue) : jdata :=
  match v with
  | VNone => JNull
  | VBool b => JBool b
  | VInt n => JInt n
  | VStr s => JStr s
  | VOther s => JStr s
  | VList elems => JList (map to_jdata elems)
  | VDict items =>
      JDict (dict_of_pairs
               (py_sorted fst
                  (map (fun kv => (fst kv, to_jdata (snd kv))) items)))
  end.

(** The recursion depth [scan_once] needs for the text of a value. *)
Fixpoint value_size (v : pyvalue) : nat :=
  match v with
  | VList elems => S (list_sum (map (fun x => S (value_size x)) elems))
  | VDict items =>
      S (list_sum (map (fun kv => S (value_size (snd kv))) items))
  | _ => 1%nat
  end.

(** The characters a JSON value can start with. *)
Definition value_start (c : ascii) : bool :=
  ascii_eqb c dquote || ascii_eqb c "{" || ascii_eqb c "[" ||
  ascii_eqb c "n" || ascii_eqb c "t" || ascii_eqb c "f" ||
  ascii_eqb c "-" || is_digit c.

Definition starts_value (t : text) : Prop :=
  exists c r, t = c :: r /\ value_start c = true.

Definition decodes (v : pyvalue) : Prop :=
  forall level fuel rest,
    (value_size v <= fuel)%nat -> delimited rest ->
    scan_once fuel (iterencode level v ++ rest) = Some (to_jdata v, rest).

Definition separator (level : nat) : text :=
  item_separator ++ newline_indent level.

(** One dict item as the encoder writes it, and the same without its
    opening quote. *)
Definition enc_item (level : nat) (kv : string * pyvalue) : text :=
  encode_item (fst kv, iterencode (S level) (snd kv)).

Definition member_body (level : nat) (kv : string * pyvalue) : text :=
  flat_map escape_char (chars (fst kv))
  ++ dquote :: ":"%char :: space :: iterencode (S level) (snd kv).

(** *** Connection failures and sample behaviours of the SDK *)

(** Where a connection attempt fails, with the scopes entered before, in
    the order in which they were entered. *)
Inductive connect_failure (k : sdk) (e : exn) : list resource -> Prop :=
| fail_spawn :
    stdio_client_enter k = Raise e -> connect_failure k e []
| fail_session_setup streams :
    stdio_client_enter k = Ok streams ->
    session_enter k = Raise e ->
    connect_failure k e [Transport]
| fail_handshake streams session :
    stdio_client_enter k = Ok streams ->
    session_enter k = Ok session ->
    session_initialize k = Raise e ->
    connect_failure k e [Transport; SessionScope].

(** The failure [connect] raises for the cause [e]. *)
Definition connection_error (e : exn) : exn :=
  Exn ConnectionError ("Could not connect to MCP server: " +:+ exn_str e)
    (Some e).

Definition world0 : world := {| trace := []; logs := []; clock := 0 |}.

Definition healthy_sdk : sdk :=
  {| stdio_client_enter := Ok (1%nat, 2%nat);
     session_enter := Ok 7%nat;
     session_initialize := Ok tt;
     session_exit := None;
     stdio_client_exit := None;
     list_tools_time := 5;
     list_tools_reply := Ok [];
     call_tool_reply := Ok [] |}.

Definition with_initialize (r : result unit) (k : sdk) : sdk :=
  {| stdio_client_enter := stdio_client_enter k;
     session_enter := session_enter k;
     session_initialize := r;
     session_exit := session_exit k;
     stdio_client_exit := stdio_client_exit k;
     list_tools_time := list_tools_time k;
     list_tools_reply := list_tools_reply k;
     call_tool_reply := call_tool_reply k |}.

Definition with_session_exit (x : option exn) (k : sdk) : sdk :=
  {| stdio_client_enter := stdio_client_enter k;
     session_enter := session_enter k;
     session_initialize := session_initialize k;
     session_exit := x;
     stdio_client_exit := stdio_client_exit k;
     list_tools_time := list_tools_time k;
     list_tools_reply := list_tools_reply k;
     call_tool_reply := call_tool_reply k |}.

Definition with_call_tool (r : result CallToolResult) (k : sdk) : sdk :=
  {| stdio_client_enter := stdio_client_enter k;
     session_enter := session_enter k;
     session_initialize := session_initialize k;
     session_exit := session_exit k;
     stdio_client_exit := stdio_client_exit k;
     list_tools_time := list_tools_time k;
     list_tools_reply := list_tools_reply k;
     call_tool_reply := r |}.

Definition handshake_error : exn :=
  Exn (OtherException "McpError") "handshake failed" None.
Definition exit_error : exn :=
  Exn (OtherException "BrokenResourceError") "pipe closed" None.
Definition cancelled_error : exn :=
  Exn (NonException "CancelledError") "" None.

Definition connected_client : MockMCPClient :=
  {| _session := Some 7%nat; _read_stream := Some 1%nat;
     _write_stream := Some 2%nat;
     _exit_stack := Some [SessionScope; Transport] |}.

(** *** Lifecycle manager *)

Definition not_started_error : exn :=
  Exn RuntimeError
    "Server is not started. Use 'async with MCPTestServer(...)' or call start()"
    None.

(** The world after [stop] logged the teardown failure [e]. *)
Definition warn_stop (e : exn) (w : world) : world :=
  {| trace := trace w;
     logs := logs w ++ [(WARNING, "Error stopping MCP test server: "
                                  +:+ exn_str e)];
     clock := clock w |}.

Definition running_server : MCPTestServer :=
  {| command := "python"; args := ["server.py"]; timeout := 30;
     _client := Some connected_client |}.

Definition running_world : world :=
  {| trace := [Entered Transport; Entered SessionScope];
     logs := []; clock := 0 |}.

(** Every failure the SDK raises while scopes are exited is an
    [Exception]. *)
Definition tame (k : sdk) : bool :=
  match session_exit k with Some e => is_Exception e | None => true end &&
  match stdio_client_exit k with Some e => is_Exception e | None => true end.

(** The body of the loop of [stop_all]. *)
Definition stop_one (k : nat -> sdk) (ref : nat) : M factory_state unit :=
  try_except (on_server ref (stop (k ref))) is_Exception
    (fun e => log WARNING ("Error stopping server: " +:+ exn_str e)).

Definition stopped (objs : list MCPTestServer) (ref : nat) : Prop :=
  exists s, objs !! ref = Some s /\ _client s = None.

(** *** Error expectation *)

(** The two assertion failures of [assert_tool_returns_error]. *)
Definition no_failure (tool : string) : exn :=
  Exn AssertionError (succeeded_message tool) None.

Definition wrong_failure (tool : string) (error_message : option string)
    (e : exn) : exn :=
  Exn AssertionError
    (mismatch_message tool (default EmptyString error_message) e) (Some e).

Definition message_mismatch (error_message : option string) (e : exn) : bool :=
  truthy error_message
  && negb (contains (default EmptyString error_message) (exn_str e)).

Definition user_not_found : exn :=
  Exn (OtherException "McpError") "User not found: 999" None.

Definition tool_assertion : exn :=
  Exn AssertionError "User not found: 999" None.

(** *** Snapshot files *)

Definition text_snapshot_path (h : SnapshotHelper) (name : string) : string :=
  test_identity h +:+ "__" +:+ name +:+ ".txt".

(** The last character tells the two kinds of file apart. *)
Fixpoint last_char (s : string) : option ascii :=
  match s with
  | EmptyString => None
  | String c EmptyString => Some c
  | String _ rest => last_char rest
  end.




(** *** Notions for the further properties *)

(** All three steps of a connection attempt succeed. *)
Definition steps_succeed (k : sdk) (rd wr : stream) (s : session_handle)
  : Prop :=
  stdio_client_enter k = Ok (rd, wr) /\ session_enter k = Ok s
  /\ session_initialize k = Ok tt.

(** No scope raises when it is exited. *)
Definition exits_clean (k : sdk) : Prop :=
  session_exit k = None /\ stdio_client_exit k = None.

Definition add_log (lvl : log_level) (msg : string) (w : world) : world :=
  {| trace := trace w; logs := logs w ++ [(lvl, msg)]; clock := clock w |}.

Definition add_events (evs : list event) (w : world) : world :=
  {| trace := trace w ++ evs; logs := logs w; clock := clock w |}.

Definition not_connected_error : exn :=
  Exn RuntimeError
    "Client is not connected. Use 'async with MockMCPClient(...)' or call connect()"
    None.

(** The exception [aclose] raises after running the exit callbacks of
    [stack], last pushed first: the one raised last, if any. *)
Fixpoint pending_after (k : sdk) (stack : list resource) (pending : option exn)
  : option exn :=
  match stack with
  | [] => pending
  | r :: stack' =>
      pending_after k stack'
        (match exit_outcome k r with Some e => Some e | None => pending end)
  end.

Definition with_list_tools (r : result (list Tool)) (k : sdk) : sdk :=
  {| stdio_client_enter := stdio_client_enter k;
     session_enter := session_enter k;
     session_initialize := session_initialize k;
     session_exit := session_exit k;
     stdio_client_exit := stdio_client_exit k;
     list_tools_time := list_tools_time k;
     list_tools_reply := r;
     call_tool_reply := call_tool_reply k |}.

Definition sample_tools : list Tool :=
  [ {| tool_name := "add"; tool_description := "Add two numbers" |};
    {| tool_name := "dup"; tool_description := "first" |};
    {| tool_name := "dup"; tool_description := "second" |} ].

Definition starting_message (s : MCPTestServer) : string :=
  "Starting MCP test server: " +:+ command s +:+ " "
  +:+ str (join [space] (map chars (args s))).

Definition start_error (e : exn) : exn :=
  Exn RuntimeError ("Could not start MCP server: " +:+ exn_str e) (Some e).

Definition not_ready_error (e : exn) : exn :=
  Exn TimeoutError ("Server did not become ready: " +:+ exn_str e) (Some e).

(** The references of a factory point to servers it created. *)
Definition factory_wf (f : MCPTestServerFactory) : Prop :=
  Forall (fun ref => (ref < length (created f))%nat) (_servers f).

Definition empty_factory : MCPTestServerFactory :=
  {| f_command := "python"; f_args := ["server.py"]; f_timeout := 30;
     created := []; _servers := [] |}.

Definition one_running_factory : MCPTestServerFactory :=
  {| f_command := "python"; f_args := ["server.py"]; f_timeout := 30;
     created := [running_server]; _servers := [0%nat] |}.


(** The node name of a parametrized test case. *)
Definition case_name (base params : string) : string :=
  base +:+ String "[" params.


Definition key_le {A} (key : A -> string) (a b : A) : Prop :=
  String.le (key a) (key b).

(** A printable ASCII character, or the line break. *)
Definition plain_char (c : ascii) : bool :=
  ascii_eqb c newline
  || ((32 <=? N_of_ascii c) && (N_of_ascii c <=? 126))%N.

Definition plain_text (t : text) : bool := forallb plain_char t.

(** An outcome that is a failed assertion. *)
Definition assertion_failed {A} (r : result A) : bool :=
  match r with
  | Raise e => is_AssertionError e
  | Ok _ => false
  end.

Definition is_scalar (d : jdata) : bool :=
  match d with
  | JNull | JBool _ | JInt _ => true
  | _ => false
  end.

(** A formatter for the examples; the outcomes do not depend on it. *)
Definition plain_formatter : formatter :=
  {| str_result := fun res => comma_join res;
     py_str := fun d => type_str d |}.


(* ===================================================================== *)
(** * Properties *)
(* ===================================================================== *)

(* --------------------------------------------------------------------- *)
(** ** Decoding what the encoder wrote: strings and integers *)

Lemma chars_str t : chars (str t) = t.
Proof. apply list_ascii_of_string_of_list_ascii. Qed.


(** One escaped character is read back as that character. *)
Lemma scanstring_escape_char c tail :
  scanstring (escape_char c ++ tail) =
  match scanstring tail with
  | Some (s, rest) => Some (String c s, rest)
  | None => None
  end.
Proof.
  destruct c as [[] [] [] [] [] [] [] []]; reflexivity.
Qed.

Lemma scanstring_escaped s rest :
  scanstring (flat_map escape_char (chars s) ++ dquote :: rest)
  = Some (s, rest).
Proof.
  induction s as [|c s IH]; simpl.
  - reflexivity.
  - rewrite <- app_assoc, scanstring_escape_char, IH. reflexivity.
Qed.

Lemma scan_encode_str s rest fuel :
  scan_once (S fuel) (encode_str s ++ rest) = Some (JStr s, rest).
Proof.
  unfold encode_str. simpl. rewrite <- app_assoc. simpl.
  rewrite scanstring_escaped. reflexivity.
Qed.

Lemma delimited_no_digit rest :
  delimited rest -> scan_digits rest = (Nil, rest).
Proof.
  destruct rest as [|c r]; simpl; [reflexivity|].
  intros [-> | ->]; reflexivity.
Qed.

Lemma delimited_no_float rest : delimited rest -> float_follows rest = false.
Proof.
  destruct rest as [|c [|d r]]; simpl; try reflexivity.
  intros [-> | ->]; reflexivity.
Qed.

Lemma scan_digits_uint_chars d rest :
  delimited rest -> scan_digits (uint_chars d ++ rest) = (d, rest).
Proof.
  intros Hrest.
  induction d; simpl; try (rewrite IHd; reflexivity).
  apply delimited_no_digit, Hrest.
Qed.

Lemma nzhead_not_D0 d d' : nzhead d <> D0 d'.
Proof. induction d; simpl; try discriminate. exact IHd. Qed.

(** [Pos.to_uint] writes no leading zero. *)
Lemma to_uint_head p d : Pos.to_uint p <> D0 d.
Proof.
  intros H.
  assert (Hn : unorm (Pos.to_uint p) = Pos.to_uint p).
  { rewrite <- (DecimalPos.Unsigned.to_of (Pos.to_uint p)).
    rewrite DecimalPos.Unsigned.of_to. reflexivity. }
  rewrite H in Hn. unfold unorm in Hn. simpl in Hn.
  destruct (nzhead d) eqn:Hz.
  - apply (DecimalPos.Unsigned.to_uint_nonzero p). rewrite H.
    injection Hn as <-. reflexivity.
  - apply (nzhead_not_D0 d d). rewrite Hz. congruence.
  - discriminate. - discriminate. - discriminate. - discriminate.
  - discriminate. - discriminate. - discriminate. - discriminate.
  - discriminate.
Qed.

Lemma scan_integer_to_uint p rest :
  delimited rest ->
  scan_integer (uint_chars (Pos.to_uint p) ++ rest) = Some (Pos.to_uint p, rest).
Proof.
  intros Hrest.
  pose proof (to_uint_head p) as Hhead.
  pose proof (DecimalPos.Unsigned.to_uint_nonnil p) as Hnil.
  pose proof (scan_digits_uint_chars (Pos.to_uint p) rest Hrest) as Hscan.
  destruct (Pos.to_uint p) as [|d|d|d|d|d|d|d|d|d|d];
    [congruence | exfalso; apply (Hhead d); reflexivity | ..];
    unfold scan_integer; simpl uint_chars in *; simpl app in *;
    rewrite Hscan; reflexivity.
Qed.

Lemma scan_number_encode_int n rest :
  delimited rest -> scan_number (encode_int n ++ rest) = Some (n, rest).
Proof.
  intros Hrest. destruct n as [|p|p].
  - simpl. rewrite (delimited_no_float rest Hrest). reflexivity.
  - pose proof (scan_integer_to_uint p rest Hrest) as Hint.
    pose proof (to_uint_head p) as Hhead.
    pose proof (DecimalPos.Unsigned.to_uint_nonnil p) as Hnil.
    unfold encode_int, scan_number.
    destruct (uint_chars (Pos.to_uint p) ++ rest) as [|c r] eqn:Hc.
    + unfold scan_integer in Hint. discriminate.
    + assert (Hminus : ascii_eqb c "-" = false).
      { destruct (Pos.to_uint p); simpl in Hc; try congruence;
          injection Hc as <- _; reflexivity. }
      rewrite Hminus, Hint. simpl.
      rewrite (delimited_no_float rest Hrest).
      change (Some (Z.of_int (Z.to_int (Zpos p)), rest) = Some (Zpos p, rest)).
      rewrite DecimalZ.of_to. reflexivity.
  - unfold encode_int, scan_number. simpl app. cbv iota beta.
    change (ascii_eqb "-" "-") with true. cbv iota.
    rewrite (scan_integer_to_uint p rest Hrest). simpl.
    rewrite (delimited_no_float rest Hrest).
    change (Some (Z.of_int (Z.to_int (Zneg p)), rest) = Some (Zneg p, rest)).
    rewrite DecimalZ.of_to. reflexivity.
Qed.

Lemma encode_int_head n :
  exists c r, encode_int n = c :: r /\ (is_digit c = true \/ c = "-"%char).
Proof.
  destruct n as [|p|p]; simpl.
  - eexists _, _. split; [reflexivity | left; reflexivity].
  - pose proof (DecimalPos.Unsigned.to_uint_nonnil p) as Hnil.
    destruct (Pos.to_uint p); [congruence | ..]; simpl;
      eexists _, _; (split; [reflexivity | left; reflexivity]).
  - eexists _, _. split; [reflexivity | right; reflexivity].
Qed.

Lemma scan_once_number c r fuel :
  is_digit c = true \/ c = "-"%char ->
  scan_once (S fuel) (c :: r) =
  match scan_number (c :: r) with
  | Some (n, rest) => Some (JInt n, rest)
  | None => None
  end.
Proof.
  intros [Hd | ->]; [|reflexivity].
  destruct c as [[] [] [] [] [] [] [] []]; try discriminate Hd; reflexivity.
Qed.

Lemma scan_encode_int n rest fuel :
  delimited rest ->
  scan_once (S fuel) (encode_int n ++ rest) = Some (JInt n, rest).
Proof.
  intros Hrest.
  pose proof (scan_number_encode_int n rest Hrest) as Hnum.
  destruct (encode_int_head n) as (c & r & Heq & Hc).
  rewrite Heq in *. simpl app in *.
  rewrite (scan_once_number c (r ++ rest) fuel Hc), Hnum. reflexivity.
Qed.

(* --------------------------------------------------------------------- *)
(** ** Decoding what the encoder wrote: containers *)

Section pyvalue_induction.
Variable P : pyvalue -> Prop.
Hypothesis HNone : P VNone.
Hypothesis HBool : forall b, P (VBool b).
Hypothesis HInt : forall n, P (VInt n).
Hypothesis HStr : forall s, P (VStr s).
Hypothesis HOther : forall s, P (VOther s).
Hypothesis HList : forall elems, Forall P elems -> P (VList elems).
Hypothesis HDict :
  forall items, Forall (fun kv => P (snd kv)) items -> P (VDict items).
(** Induction on values that reaches the elements of lists and dicts. *)
Lemma pyvalue_nested_ind : forall v, P v.
Proof.
  fix IH 1. intros [| b | n | s | elems | items | s].
  - exact HNone.
  - apply HBool.
  - apply HInt.
  - apply HStr.
  - apply HList. induction elems as [|x l IHl]; constructor;
      [apply IH | exact IHl].
  - apply HDict. induction items as [|kv l IHl]; constructor;
      [apply IH | exact IHl].
  - apply HOther.
Qed.
End pyvalue_induction.

Lemma value_start_not_ws c :
  value_start c = true ->
  is_ws c = false /\ ascii_eqb c "]" = false /\ ascii_eqb c "}" = false.
Proof.
  destruct c as [[] [] [] [] [] [] [] []]; try discriminate; intros _; repeat split.
Qed.

Lemma iterencode_starts level v : starts_value (iterencode level v).
Proof.
  destruct v as [|[]|n|s|[|x l]|[|kv l]|s]; simpl;
    try (eexists _, _; split; [reflexivity|reflexivity]).
  destruct (encode_int_head n) as (c & r & -> & [Hd | ->]);
    eexists _, _; (split; [reflexivity|]).
  - unfold value_start. rewrite Hd. repeat rewrite orb_true_r. reflexivity.
  - reflexivity.
Qed.

Lemma skip_ws_spaces n t : skip_ws (repeat space n ++ t) = skip_ws t.
Proof. induction n; simpl; [reflexivity | exact IHn]. Qed.

Lemma skip_ws_newline_indent level t :
  skip_ws (newline_indent level ++ t) = skip_ws t.
Proof. unfold newline_indent. simpl. apply skip_ws_spaces. Qed.

Lemma skip_ws_starts t tail :
  starts_value t -> skip_ws (t ++ tail) = t ++ tail.
Proof.
  intros (c & r & -> & Hc). simpl.
  destruct (value_start_not_ws c Hc) as (-> & _). reflexivity.
Qed.

Lemma join_cons sep p ps : exists q, join sep (p :: ps) = p ++ q.
Proof.
  destruct ps; simpl; [exists []; rewrite app_nil_r|eexists]; reflexivity.
Qed.

Lemma skip_ws_to_join level sep p ps tail :
  starts_value p ->
  skip_ws (newline_indent level ++ join sep (p :: ps) ++ tail)
  = join sep (p :: ps) ++ tail.
Proof.
  intros Hp. rewrite skip_ws_newline_indent.
  destruct (join_cons sep p ps) as (q & ->). rewrite <- app_assoc.
  apply skip_ws_starts, Hp.
Qed.

Lemma scan_elements_step fuel cs :
  scan_elements (S fuel) cs =
  match scan_once fuel cs with
  | Some (v, r) =>
      match skip_ws r with
      | c1 :: r1 =>
          if ascii_eqb c1 "]" then Some ([v], r1)
          else if ascii_eqb c1 "," then
            match scan_elements fuel (skip_ws r1) with
            | Some (vs, rest) => Some (v :: vs, rest)
            | None => None
            end
          else None
      | [] => None
      end
  | None => None
  end.
Proof.
  simpl. destruct (scan_once fuel cs) as [[v r]|]; [|reflexivity]. simpl.
  destruct (skip_ws r) as [|c1 r1]; [reflexivity|].
  destruct (ascii_eqb c1 "]"); [reflexivity|].
  destruct (ascii_eqb c1 ","); [|reflexivity].
  destruct (scan_elements fuel (skip_ws r1)) as [[vs rest]|]; reflexivity.
Qed.

Lemma skip_ws_separator level t :
  skip_ws (separator level ++ t) = ","%char :: (newline_indent level ++ t).
Proof. reflexivity. Qed.

Lemma delimited_separator level t : delimited (separator level ++ t).
Proof. left. reflexivity. Qed.

Lemma delimited_newline_indent level t : delimited (newline_indent level ++ t).
Proof. right. reflexivity. Qed.

Lemma join_cons_cons sep p q ps :
  join sep (p :: q :: ps) = p ++ sep ++ join sep (q :: ps).
Proof. reflexivity. Qed.

Lemma scan_elements_join level elems fuel rest :
  elems <> [] ->
  Forall decodes elems ->
  (list_sum (map (fun x => S (value_size x)) elems) <= fuel)%nat ->
  scan_elements fuel
    (join (separator (S level)) (map (iterencode (S level)) elems)
     ++ newline_indent level ++ "]"%char :: rest)
  = Some (map to_jdata elems, rest).
Proof.
  intros Hne Hall. revert fuel.
  induction Hall as [|x l Hx Hl IH]; [congruence|]. clear Hne.
  intros fuel Hfuel. rewrite map_cons in Hfuel.
  change (S (value_size x + list_sum (map (fun x => S (value_size x)) l)) <= fuel)%nat in Hfuel.
  destruct fuel as [|fuel]; [lia|].
  rewrite scan_elements_step.
  destruct l as [|y l].
  - cbn [map join].
    rewrite (Hx (S level) fuel); [|lia|apply delimited_newline_indent].
    rewrite skip_ws_newline_indent. reflexivity.
  - rewrite !map_cons, join_cons_cons, <- !app_assoc.
    rewrite (Hx (S level) fuel); [|lia|apply delimited_separator].
    rewrite skip_ws_separator.
    change (ascii_eqb "," "]") with false. change (ascii_eqb "," ",") with true.
    cbv iota.
    rewrite (skip_ws_to_join (S level) (separator (S level)));
      [|apply iterencode_starts].
    change (iterencode (S level) y :: map (iterencode (S level)) l)
      with (map (iterencode (S level)) (y :: l)).
    rewrite IH; [reflexivity|congruence|lia].
Qed.

Lemma scan_members_step fuel cs :
  scan_members (S fuel) cs =
  match scanstring cs with
  | Some (key, r) =>
      match skip_ws r with
      | c1 :: r1 =>
          if ascii_eqb c1 ":" then
            match scan_once fuel (skip_ws r1) with
            | Some (v, r2) =>
                match skip_ws r2 with
                | c3 :: r3 =>
                    if ascii_eqb c3 "}" then Some ([(key, v)], r3)
                    else if ascii_eqb c3 "," then
                      match skip_ws r3 with
                      | c4 :: r4 =>
                          if ascii_eqb c4 dquote then
                            match scan_members fuel r4 with
                            | Some (kvs, rest) => Some ((key, v) :: kvs, rest)
                            | None => None
                            end
                          else None
                      | [] => None
                      end
                    else None
                | [] => None
                end
            | None => None
            end
          else None
      | [] => None
      end
  | None => None
  end.
Proof.
  simpl. destruct (scanstring cs) as [[key r]|]; [|reflexivity]. simpl.
  destruct (skip_ws r) as [|c1 r1]; [reflexivity|].
  destruct (ascii_eqb c1 ":"); [|reflexivity].
  destruct (scan_once fuel (skip_ws r1)) as [[v r2]|]; [|reflexivity]. simpl.
  destruct (skip_ws r2) as [|c3 r3]; [reflexivity|].
  destruct (ascii_eqb c3 "}"); [reflexivity|].
  destruct (ascii_eqb c3 ","); [|reflexivity].
  destruct (skip_ws r3) as [|c4 r4]; [reflexivity|].
  destruct (ascii_eqb c4 dquote); [|reflexivity].
  destruct (scan_members fuel r4) as [[kvs rest]|]; reflexivity.
Qed.

Lemma enc_item_body level kv : enc_item level kv = dquote :: member_body level kv.
Proof.
  unfold enc_item, member_body, encode_item, encode_str, key_separator. simpl.
  rewrite <- app_assoc. reflexivity.
Qed.

Lemma enc_item_starts level kv : starts_value (enc_item level kv).
Proof. rewrite enc_item_body. eexists _, _. split; reflexivity. Qed.

Lemma scan_member_value level kv fuel tail :
  decodes (snd kv) ->
  (value_size (snd kv) <= fuel)%nat ->
  delimited tail ->
  scan_members (S fuel) (member_body level kv ++ tail) =
  match skip_ws tail with
  | c3 :: r3 =>
      if ascii_eqb c3 "}" then Some ([(fst kv, to_jdata (snd kv))], r3)
      else if ascii_eqb c3 "," then
        match skip_ws r3 with
        | c4 :: r4 =>
            if ascii_eqb c4 dquote then
              match scan_members fuel r4 with
              | Some (kvs, rest) =>
                  Some ((fst kv, to_jdata (snd kv)) :: kvs, rest)
              | None => None
              end
            else None
        | [] => None
        end
      else None
  | [] => None
  end.
Proof.
  intros Hv Hfuel Htail.
  rewrite scan_members_step. unfold member_body.
  rewrite <- app_assoc. cbn [app]. rewrite scanstring_escaped.
  change (skip_ws (":"%char :: space :: ?t)) with (":"%char :: space :: t).
  cbv iota beta. change (ascii_eqb ":" ":") with true. cbv iota.
  change (skip_ws (space :: ?t)) with (skip_ws t).
  rewrite skip_ws_starts by apply iterencode_starts.
  rewrite (Hv (S level) fuel tail Hfuel Htail). reflexivity.
Qed.

Lemma scan_members_join level sitems fuel rest :
  sitems <> [] ->
  Forall (fun kv => decodes (snd kv)) sitems ->
  (list_sum (map (fun kv => S (value_size (snd kv))) sitems) <= fuel)%nat ->
  scan_members fuel
    (tl (join (separator (S level)) (map (enc_item level) sitems)
         ++ newline_indent level ++ "}"%char :: rest))
  = Some (map (fun kv => (fst kv, to_jdata (snd kv))) sitems, rest).
Proof.
  intros Hne Hall. revert fuel.
  induction Hall as [|x l Hx Hl IH]; [congruence|]. clear Hne.
  intros fuel Hfuel. rewrite map_cons in Hfuel.
  change (S (value_size (snd x)
             + list_sum (map (fun kv => S (value_size (snd kv))) l)) <= fuel)%nat
    in Hfuel.
  destruct fuel as [|fuel]; [lia|].
  destruct l as [|y l].
  - cbn [map join]. rewrite enc_item_body. cbn [app tl].
    rewrite (scan_member_value level x fuel);
      [|exact Hx|lia|apply delimited_newline_indent].
    rewrite skip_ws_newline_indent. reflexivity.
  - rewrite !map_cons, join_cons_cons, <- !app_assoc.
    rewrite enc_item_body at 1. cbn [app tl].
    rewrite (scan_member_value level x fuel);
      [|exact Hx|lia|apply delimited_separator].
    rewrite skip_ws_separator.
    change (ascii_eqb "," "}") with false. change (ascii_eqb "," ",") with true.
    cbv iota.
    rewrite (skip_ws_to_join (S level) (separator (S level)));
      [|apply enc_item_starts].
    change (enc_item level y :: map (enc_item level) l)
      with (map (enc_item level) (y :: l)).
    specialize (IH ltac:(congruence) fuel ltac:(lia)).
    destruct (join_cons (separator (S level)) (enc_item level y)
                (map (enc_item level) l)) as (q & Hq).
    rewrite map_cons in *. rewrite Hq in *. rewrite enc_item_body in *.
    cbn [app tl] in *. change (ascii_eqb dquote dquote) with true. cbv iota.
    rewrite IH. reflexivity.
Qed.

Lemma insert_sorted_perm {A} (key : A -> string) x l :
  insert_sorted key x l ≡ₚ x :: l.
Proof.
  induction l as [|y l IH]; simpl; [reflexivity|].
  destruct (String.leb (key x) (key y)); [reflexivity|].
  rewrite IH. apply Permutation_swap.
Qed.

Lemma py_sorted_perm {A} (key : A -> string) l : py_sorted key l ≡ₚ l.
Proof.
  induction l as [|x l IH]; simpl; [reflexivity|].
  unfold py_sorted in *. simpl. rewrite insert_sorted_perm, IH. reflexivity.
Qed.

Lemma insert_sorted_map {A B} (keyA : A -> string) (keyB : B -> string)
    (g : A -> B) x l :
  (forall a, keyB (g a) = keyA a) ->
  insert_sorted keyB (g x) (map g l) = map g (insert_sorted keyA x l).
Proof.
  intros Hkey. induction l as [|y l IH]; simpl; [reflexivity|].
  rewrite !Hkey. destruct (String.leb (keyA x) (keyA y)); simpl;
    [reflexivity | rewrite IH; reflexivity].
Qed.

Lemma py_sorted_map {A B} (keyA : A -> string) (keyB : B -> string)
    (g : A -> B) l :
  (forall a, keyB (g a) = keyA a) ->
  py_sorted keyB (map g l) = map g (py_sorted keyA l).
Proof.
  intros Hkey. induction l as [|x l IH]; simpl; [reflexivity|].
  unfold py_sorted in *. simpl. rewrite IH.
  apply insert_sorted_map, Hkey.
Qed.

Lemma list_sum_perm (l1 l2 : list nat) : l1 ≡ₚ l2 -> list_sum l1 = list_sum l2.
Proof.
  induction 1; simpl; lia.
Qed.

Lemma scan_once_step_list fuel r :
  scan_once (S fuel) ("["%char :: r) =
  match skip_ws r with
  | c1 :: r1 =>
      if ascii_eqb c1 "]" then Some (JList [], r1)
      else
        match scan_elements fuel (c1 :: r1) with
        | Some (elems, rest) => Some (JList elems, rest)
        | None => None
        end
  | [] => None
  end.
Proof.
  simpl. destruct (skip_ws r) as [|c1 r1]; [reflexivity|].
  destruct (ascii_eqb c1 "]"); [reflexivity|].
  destruct (scan_elements fuel (c1 :: r1)) as [[elems rest]|]; reflexivity.
Qed.

Lemma scan_once_step_dict fuel r :
  scan_once (S fuel) ("{"%char :: r) =
  match skip_ws r with
  | c1 :: r1 =>
      if ascii_eqb c1 "}" then Some (JDict [], r1)
      else if ascii_eqb c1 dquote then
        match scan_members fuel r1 with
        | Some (pairs, rest) => Some (JDict (dict_of_pairs pairs), rest)
        | None => None
        end
      else None
  | [] => None
  end.
Proof.
  simpl. destruct (skip_ws r) as [|c1 r1]; [reflexivity|].
  destruct (ascii_eqb c1 "}"); [reflexivity|].
  destruct (ascii_eqb c1 dquote); [|reflexivity].
  destruct (scan_members fuel r1) as [[pairs rest]|]; reflexivity.
Qed.

Lemma iterencode_list level x l :
  iterencode level (VList (x :: l)) =
  "["%char :: newline_indent (S level)
  ++ join (separator (S level)) (map (iterencode (S level)) (x :: l))
  ++ newline_indent level ++ ["]"%char].
Proof. reflexivity. Qed.

Lemma iterencode_dict level kv l :
  iterencode level (VDict (kv :: l)) =
  "{"%char :: newline_indent (S level)
  ++ join (separator (S level))
       (map (enc_item level) (py_sorted fst (kv :: l)))
  ++ newline_indent level ++ ["}"%char].
Proof.
  cbn [iterencode]. do 3 f_equal.
  rewrite (py_sorted_map fst fst
             (fun kv => (fst kv, iterencode (S level) (snd kv))))
    by reflexivity.
  rewrite map_map. reflexivity.
Qed.

Theorem scan_once_iterencode v : decodes v.
Proof.
  induction v as [| b | n | s | s | elems IH | items IH]
    using pyvalue_nested_ind; intros level fuel rest Hfuel Hrest;
    (destruct fuel as [|fuel]; [simpl in Hfuel; lia|]).
  - reflexivity.
  - destruct b; reflexivity.
  - apply scan_encode_int, Hrest.
  - apply scan_encode_str.
  - apply scan_encode_str.
  - destruct elems as [|x l]; [reflexivity|].
    rewrite iterencode_list. cbn [app]. rewrite scan_once_step_list.
    rewrite <- !app_assoc, map_cons.
    rewrite (skip_ws_to_join (S level) (separator (S level)));
      [|apply iterencode_starts].
    destruct (join_cons (separator (S level)) (iterencode (S level) x)
                (map (iterencode (S level)) l)) as (q & Hq).
    destruct (iterencode_starts (S level) x) as (c & r & Hc & Hstart).
    destruct (value_start_not_ws c Hstart) as (_ & Hclose & _).
    pose proof (scan_elements_join level (x :: l) fuel rest
                  ltac:(congruence) IH) as Hscan.
    change (S (list_sum (map (fun x => S (value_size x)) (x :: l))) <= S fuel)%nat
      in Hfuel.
    specialize (Hscan ltac:(lia)).
    rewrite map_cons in Hscan. rewrite Hq, Hc in *.
    cbn [app] in *. rewrite Hclose, Hscan. reflexivity.
  - destruct items as [|kv l]; [reflexivity|].
    rewrite iterencode_dict. cbn [app]. rewrite scan_once_step_dict.
    rewrite <- !app_assoc.
    assert (Hperm : py_sorted fst (kv :: l) ≡ₚ kv :: l) by apply py_sorted_perm.
    destruct (py_sorted fst (kv :: l)) as [|kv' l'] eqn:Hsorted.
    { apply Permutation_nil_cons in Hperm. destruct Hperm. }
    rewrite map_cons.
    rewrite (skip_ws_to_join (S level) (separator (S level)));
      [|apply enc_item_starts].
    pose proof (scan_members_join level (kv' :: l') fuel rest
                  ltac:(congruence)) as Hscan.
    change (S (list_sum (map (fun kv => S (value_size (snd kv))) (kv :: l)))
            <= S fuel)%nat in Hfuel.
    rewrite <- (list_sum_perm _ _
                  (Permutation_map (fun kv => S (value_size (snd kv))) Hperm))
      in Hfuel.
    rewrite <- Hperm in IH.
    specialize (Hscan IH ltac:(lia)).
    destruct (join_cons (separator (S level)) (enc_item level kv')
                (map (enc_item level) l')) as (q & Hq).
    rewrite map_cons in Hscan. rewrite Hq in *.
    rewrite enc_item_body in *. cbn [app tl] in *.
    change (ascii_eqb dquote "}") with false.
    change (ascii_eqb dquote dquote) with true. cbv iota.
    rewrite Hscan. cbn [to_jdata].
    rewrite (py_sorted_map fst fst (fun kv => (fst kv, to_jdata (snd kv))))
      by reflexivity.
    rewrite Hsorted. reflexivity.
Qed.

Lemma list_sum_le {A} (f g : A -> nat) l :
  Forall (fun x => (f x <= g x)%nat) l ->
  (list_sum (map f l) <= list_sum (map g l))%nat.
Proof. induction 1; simpl; lia. Qed.

Lemma join_length sep (ps : list text) :
  (1 <= length sep)%nat ->
  (list_sum (map (fun p => S (length p)) ps) <= S (length (join sep ps)))%nat.
Proof.
  intros Hsep. induction ps as [|p [|q ps] IH].
  - simpl. lia.
  - simpl. lia.
  - rewrite join_cons_cons, map_cons, !length_app.
    change (list_sum (S (length p) :: ?l)) with (S (length p) + list_sum l)%nat.
    unfold text in *. lia.
Qed.

Lemma separator_length level : (1 <= length (separator level))%nat.
Proof. simpl. lia. Qed.

Lemma value_size_le_length v :
  forall level, (value_size v <= length (iterencode level v))%nat.
Proof.
  induction v as [| b | n | s | s | elems IH | items IH]
    using pyvalue_nested_ind; intros level.
  - simpl. lia.
  - destruct b; simpl; lia.
  - destruct (encode_int_head n) as (c & r & Hc & _).
    simpl. rewrite Hc. simpl. lia.
  - simpl. lia.
  - simpl. lia.
  - destruct elems as [|x l]; [simpl; lia|].
    rewrite iterencode_list.
    change (value_size (VList (x :: l)))
      with (S (list_sum (map (fun x => S (value_size x)) (x :: l)))).
    pose proof (join_length (separator (S level))
                  (map (iterencode (S level)) (x :: l))
                  (separator_length _)) as Hjoin.
    rewrite map_map in Hjoin.
    pose proof (list_sum_le (fun x => S (value_size x))
                  (fun x => S (length (iterencode (S level) x))) (x :: l)) as Hle.
    cbn [length]. rewrite !length_app. cbn [length].
    assert (Hall : Forall (fun x => (S (value_size x)
                              <= S (length (iterencode (S level) x)))%nat) (x :: l)).
    { eapply Forall_impl; [exact IH|]. intros v Hv. simpl. specialize (Hv (S level)). lia. }
    specialize (Hle Hall). lia.
  - destruct items as [|kv l]; [simpl; lia|].
    rewrite iterencode_dict.
    change (value_size (VDict (kv :: l)))
      with (S (list_sum (map (fun kv => S (value_size (snd kv))) (kv :: l)))).
    pose proof (py_sorted_perm fst (kv :: l)) as Hperm.
    rewrite <- (list_sum_perm _ _
                  (Permutation_map (fun kv => S (value_size (snd kv))) Hperm)).
    rewrite <- Hperm in IH.
    pose proof (join_length (separator (S level))
                  (map (enc_item level) (py_sorted fst (kv :: l)))
                  (separator_length _)) as Hjoin.
    rewrite map_map in Hjoin.
    pose proof (list_sum_le (fun kv => S (value_size (snd kv)))
                  (fun kv => S (length (enc_item level kv)))
                  (py_sorted fst (kv :: l))) as Hle.
    cbn [length]. rewrite !length_app. cbn [length].
    assert (Hall : Forall (fun kv => (S (value_size (snd kv))
                              <= S (length (enc_item level kv)))%nat)
                     (py_sorted fst (kv :: l))).
    { eapply Forall_impl; [exact IH|]. intros v Hv. cbv beta in *.
      specialize (Hv (S level)). rewrite enc_item_body. unfold member_body.
      cbn [length]. rewrite length_app. cbn [length]. lia. }
    specialize (Hle Hall). lia.
Qed.

(** Decoding the text of a value succeeds, with the data of that value. *)
Theorem json_loads_dumps v : json_loads (json_dumps v) = Some (to_jdata v).
Proof.
  unfold json_loads, json_dumps. rewrite chars_str.
  pose proof (skip_ws_starts (iterencode 0 v) [] (iterencode_starts 0 v)) as Hws.
  rewrite app_nil_r in Hws. rewrite Hws.
  pose proof (scan_once_iterencode v 0%nat
                (2 * length (iterencode 0 v) + 2)%nat []) as Hscan.
  rewrite app_nil_r in Hscan. rewrite Hscan.
  - reflexivity.
  - pose proof (value_size_le_length v 0). lia.
  - exact I.
Qed.

(* --------------------------------------------------------------------- *)
(** ** Equality of decoded data *)

Lemma py_eq_list xs ys :
  py_eq (JList xs) (JList ys) =
  (fix all2 (xs ys : list jdata) {struct xs} : bool :=
     match xs, ys with
     | [], [] => true
     | x :: xs', y :: ys' => py_eq x y && all2 xs' ys'
     | _, _ => false
     end) xs ys.
Proof. reflexivity. Qed.

Lemma py_eq_dict ps qs :
  py_eq (JDict ps) (JDict qs) =
  (length ps =? length qs)%nat &&
  forallb (fun kv => match dict_get (fst kv) qs with
                     | Some w => py_eq (snd kv) w
                     | None => false
                     end) ps.
Proof.
  simpl. f_equal. induction ps as [|[k v] ps IH]; simpl; [reflexivity|].
  rewrite IH. reflexivity.
Qed.

Lemma py_eq_list_refl xs :
  Forall (fun x => py_eq x x = true) xs -> py_eq (JList xs) (JList xs) = true.
Proof.
  rewrite py_eq_list. induction 1 as [|x xs Hx _ IH]; [reflexivity|].
  rewrite Hx, IH. reflexivity.
Qed.

Lemma dict_get_In {V} (d : list (string * V)) k x :
  NoDup (map fst d) -> In (k, x) d -> dict_get k d = Some x.
Proof.
  induction d as [|[k' x'] d IH]; simpl; [tauto|].
  intros Hnd [Heq | Hin].
  - injection Heq as -> ->. rewrite String.eqb_refl. reflexivity.
  - apply NoDup_cons in Hnd as [Hnotin Hnd].
    destruct (String.eqb_spec k k') as [-> | Hne].
    + exfalso. apply Hnotin. apply list_elem_of_In.
      apply (in_map fst) in Hin. exact Hin.
    + apply IH; assumption.
Qed.

Lemma dict_set_In {V} k (v : V) d k' x :
  In (k', x) (dict_set k v d) -> (k', x) = (k, v) \/ In (k', x) d.
Proof.
  induction d as [|[k0 v0] d IH]; simpl.
  - intros [H | []]. left. congruence.
  - destruct (String.eqb k k0); simpl.
    + intros [H | H]; [left; congruence | right; right; exact H].
    + intros [H | H]; [right; left; exact H|].
      destruct (IH H) as [? | ?]; [left | right; right]; assumption.
Qed.

Lemma dict_set_keys {V} k (v : V) d k' :
  In k' (map fst (dict_set k v d)) -> k' = k \/ In k' (map fst d).
Proof.
  induction d as [|[k0 v0] d IH]; simpl.
  - intros [H | []]. left. congruence.
  - destruct (String.eqb_spec k k0) as [-> | Hne]; simpl.
    + intros [H | H]; [left; congruence | right; right; exact H].
    + intros [H | H]; [right; left; exact H|].
      destruct (IH H) as [? | ?]; [left | right; right]; assumption.
Qed.

Lemma dict_set_NoDup {V} k (v : V) d :
  NoDup (map fst d) -> NoDup (map fst (dict_set k v d)).
Proof.
  induction d as [|[k0 v0] d IH]; simpl; intros Hnd.
  - apply NoDup_cons. split; [intros H; inversion H | constructor].
  - apply NoDup_cons in Hnd as [Hnotin Hnd].
    destruct (String.eqb_spec k k0) as [-> | Hne]; simpl.
    + apply NoDup_cons. split; assumption.
    + apply NoDup_cons. split; [|apply IH, Hnd].
      intros Hin. apply list_elem_of_In in Hin.
      apply dict_set_keys in Hin as [-> | Hin]; [congruence|].
      apply Hnotin, list_elem_of_In, Hin.
Qed.

Lemma dict_of_pairs_spec {V} (pairs : list (string * V)) :
  NoDup (map fst (dict_of_pairs pairs)) /\
  (forall k x, In (k, x) (dict_of_pairs pairs) -> In (k, x) pairs).
Proof.
  unfold dict_of_pairs.
  assert (Hgen : forall acc,
    NoDup (map fst acc) ->
    NoDup (map fst (fold_left (fun d kv => dict_set (fst kv) (snd kv) d) pairs acc))
    /\ (forall k x,
          In (k, x) (fold_left (fun d kv => dict_set (fst kv) (snd kv) d) pairs acc) ->
          In (k, x) acc \/ In (k, x) pairs)).
  { induction pairs as [|[k v] pairs IH]; simpl; intros acc Hacc.
    - split; [exact Hacc | intros; left; assumption].
    - destruct (IH (dict_set k v acc) (dict_set_NoDup k v acc Hacc)) as [Hnd Hin].
      split; [exact Hnd|]. intros k' x H.
      destruct (Hin k' x H) as [H1 | H1]; [|right; right; exact H1].
      apply dict_set_In in H1 as [H1 | H1]; [right; left; congruence | left; exact H1]. }
  destruct (Hgen [] (NoDup_nil_2)) as [Hnd Hin].
  split; [exact Hnd|]. intros k x H. destruct (Hin k x H) as [[] | ?]; assumption.
Qed.

Lemma py_eq_dict_refl d :
  NoDup (map fst d) ->
  Forall (fun kv => py_eq (snd kv) (snd kv) = true) d ->
  py_eq (JDict d) (JDict d) = true.
Proof.
  intros Hnd Hall. rewrite py_eq_dict, Nat.eqb_refl. simpl.
  apply forallb_forall. intros [k x] Hin. simpl.
  rewrite (dict_get_In d k x Hnd Hin).
  rewrite List.Forall_forall in Hall. apply (Hall (k, x) Hin).
Qed.

Theorem py_eq_to_jdata_refl v : py_eq (to_jdata v) (to_jdata v) = true.
Proof.
  induction v as [| b | n | s | s | elems IH | items IH]
    using pyvalue_nested_ind; cbn [to_jdata].
  - reflexivity.
  - destruct b; reflexivity.
  - simpl. apply Z.eqb_refl.
  - simpl. apply String.eqb_refl.
  - simpl. apply String.eqb_refl.
  - apply py_eq_list_refl. apply List.Forall_map. exact IH.
  - destruct (dict_of_pairs_spec
                (py_sorted fst (map (fun kv => (fst kv, to_jdata (snd kv))) items)))
      as [Hnd Hin].
    apply py_eq_dict_refl; [exact Hnd|].
    apply List.Forall_forall. intros [k x] Hkx. simpl.
    apply Hin in Hkx.
    apply (Permutation_in _ (py_sorted_perm fst _)) in Hkx.
    apply in_map_iff in Hkx as ([k0 v0] & Heq & Hin0). simpl in Heq.
    injection Heq as <- <-.
    rewrite List.Forall_forall in IH. apply (IH (k0, v0) Hin0).
Qed.

Ltac run_client :=
  repeat (progress
    (unfold connect, disconnect, aclose, enter_async_context, await, emit, log,
       sleep, update_client, update_server, on_client, _ensure_connected,
       list_tools, call_tool, get_client, stop, start, wait_for_ready,
       try_except, try_excepts, try_finally, bind, ret, raise, get, modify
       in *; simpl in *)).

Lemma live_handles_app tr extra :
  live_handles (tr ++ extra) =
  fold_left (fun live ev =>
               match ev with
               | Entered r => r :: live
               | Exited r => remove_first r live
               end) extra (live_handles tr).
Proof. unfold live_handles. apply fold_left_app. Qed.

(** C1 (as amended).  When a step of [connect] on a client that is not
    connected yet (transport spawn, session setup or handshake) raises an
    [Exception], and exiting the scopes entered so far does not raise in
    turn, then the scopes entered so far are exited in reverse order of
    entry, the session, both streams and the exit stack are reset to [None],
    the caller gets one [ConnectionError] whose cause is the original
    exception, no entered scope stays live and the client is disconnected. *)
Theorem connect_failure_releases k c w e acquired :
  _session c = None ->
  connect_failure k e acquired ->
  is_Exception e = true ->
  session_exit k = None ->
  stdio_client_exit k = None ->
  let w' := {| trace := trace w ++ map Entered acquired
                          ++ map Exited (rev acquired);
               logs := logs w ++ [(ERROR, "Failed to connect to MCP server: "
                                          +:+ exn_str e)];
               clock := clock w |} in
  connect k (c, w) = (Raise (connection_error e), (new_client, w'))
  /\ live_handles (trace w') = live_handles (trace w)
  /\ is_connected new_client = false.
Proof.
  intros Hc Hfail He Hsx Htx w'. subst w'. split; [|split].
  - destruct c as [ses rd wr st]. simpl in Hc. subst ses.
    destruct Hfail as [Hs | [rd' wr'] Hs Hn | [rd' wr'] s Hs Hn Hi];
      run_client; rewrite ?Hs, ?Hn, ?Hi; run_client; rewrite ?He;
      run_client; rewrite ?Hsx, ?Htx; run_client;
      rewrite ?app_nil_r, <- ?app_assoc; reflexivity.
  - simpl. rewrite live_handles_app.
    destruct Hfail; simpl; try reflexivity.
  - reflexivity.
Qed.

Lemma connect_failure_releases_witness :
  connect (with_initialize (Raise handshake_error) healthy_sdk)
    (new_client, world0)
  = (Raise (connection_error handshake_error),
     (new_client,
      {| trace := [Entered Transport; Entered SessionScope;
                   Exited SessionScope; Exited Transport];
         logs := [(ERROR, "Failed to connect to MCP server: handshake failed")];
         clock := 0 |})).
Proof.
  refine (proj1 (connect_failure_releases
                   (with_initialize (Raise handshake_error) healthy_sdk)
                   new_client world0 handshake_error [Transport; SessionScope]
                   _ _ _ _ _)); try reflexivity.
  eapply fail_handshake; reflexivity.
Defined.

(** C1 as stated fails in two ways: when exiting a scope raises during the
    clean-up, that exception reaches the caller unwrapped and the session
    field stays set; and an exception outside the [Exception] hierarchy
    (a cancellation) skips the clean-up, leaving both scopes live. *)
Lemma connect_failure_not_always_released :
  (let r := connect (with_session_exit (Some exit_error)
                       (with_initialize (Raise handshake_error) healthy_sdk))
              (new_client, world0) in
   fst r = Raise exit_error
   /\ fst (snd r) =
      {| _session := Some 7%nat; _read_stream := Some 1%nat;
         _write_stream := Some 2%nat; _exit_stack := Some [] |}
   /\ is_connected (fst (snd r)) = true)
  /\
  (let r := connect (with_initialize (Raise cancelled_error) healthy_sdk)
              (new_client, world0) in
   fst r = Raise cancelled_error
   /\ fst (snd r) = connected_client
   /\ live_handles (trace (snd (snd r))) = [SessionScope; Transport]).
Proof. repeat split. Qed.

(* ------------------------------ server ------------------------------ *)

Lemma get_client_spec s w :
  get_client (s, w) =
  (match _client s with
   | Some c => if is_connected c then Ok c else Raise not_started_error
   | None => Raise not_started_error
   end, (s, w)).
Proof.
  run_client. destruct (_client s) as [c|]; [|reflexivity].
  destruct (is_connected c); reflexivity.
Qed.

Lemma try_finally_update {A} (m : M server_state A) f st :
  try_finally m (update_server f) st
  = (fst (m st), (f (fst (snd (m st))), snd (snd (m st)))).
Proof.
  unfold try_finally, update_server, modify.
  destruct (m st) as [r [s w]]. reflexivity.
Qed.

Lemma stop_clears_client k st : _client (fst (snd (stop k st))) = None.
Proof.
  destruct st as [s w]. unfold stop, bind, get. simpl.
  destruct (_client s) as [c|] eqn:Hc; simpl.
  - rewrite try_finally_update. reflexivity.
  - exact Hc.
Qed.

Lemma connect_ok_connected k c w c' w' :
  connect k (c, w) = (Ok tt, (c', w')) -> is_connected c' = true.
Proof.
  destruct c as [ses rd wr st]. unfold connect. run_client.
  destruct ses as [s|]; simpl.
  { intros H. injection H as <- _. reflexivity. }
  destruct (stdio_client_enter k) as [[rd' wr']|e1]; simpl.
  - destruct (session_enter k) as [s|e2]; simpl.
    + destruct (session_initialize k) as [[]|e3]; simpl.
      * intros H. injection H as <- _. reflexivity.
      * destruct (is_Exception e3); simpl; [|discriminate].
        destruct (session_exit k), (stdio_client_exit k); simpl; discriminate.
    + destruct (is_Exception e2); simpl; [|discriminate].
      destruct (stdio_client_exit k); simpl; discriminate.
  - destruct (is_Exception e1); simpl; discriminate.
Qed.

Local Arguments connect : simpl never.
Local Arguments disconnect : simpl never.
Local Arguments stop : simpl never.
Local Arguments start : simpl never.
Local Arguments list_tools : simpl never.
Local Arguments call_tool : simpl never.

Ltac run_server :=
  repeat (progress
    (unfold on_client, update_server, log, try_except, try_excepts,
       try_finally, bind, ret, raise, get, modify in *; simpl in *)).

Lemma start_ok_connected k s w s' w' :
  start k (s, w) = (Ok tt, (s', w')) ->
  exists c, _client s' = Some c /\ is_connected c = true.
Proof.
  unfold start. run_server.
  destruct (connect k _) as [[[]|e] [c1 w1]] eqn:Hconnect; simpl.
  - intros H. injection H as <- _. simpl.
    exists c1. split; [reflexivity|]. eapply connect_ok_connected, Hconnect.
  - destruct (is_Exception e); [|discriminate].
    match goal with |- context [stop k ?st] => destruct (stop k st) as [[[]|e'] st'] end;
      discriminate.
Qed.

(** C8.  [get_client] returns the client only when the manager holds one
    that is connected, and raises the "not started" error otherwise: on a
    new manager it raises, after a successful [start] it returns a connected
    client, after [stop] it raises. *)
Theorem get_client_only_when_connected :
  (forall s w,
     match fst (get_client (s, w)) with
     | Ok c => _client s = Some c /\ is_connected c = true /\ is_running s = true
     | Raise e => e = not_started_error /\ is_running s = false
     end)
  /\ (forall cmd arguments t w,
        fst (get_client (new_server cmd arguments t, w)) = Raise not_started_error)
  /\ (forall k s w s' w',
        start k (s, w) = (Ok tt, (s', w')) ->
        exists c, fst (get_client (s', w')) = Ok c /\ is_connected c = true)
  /\ (forall k st,
        fst (get_client (snd (stop k st))) = Raise not_started_error).
Proof.
  repeat split.
  - intros s w. rewrite get_client_spec. unfold is_running. simpl.
    destruct (_client s) as [c|]; [|split; reflexivity].
    destruct (is_connected c) eqn:Hc; repeat split; assumption.
  - intros k s w s' w' Hstart.
    destruct (start_ok_connected k s w s' w' Hstart) as (c & Hc & Hconn).
    exists c. rewrite get_client_spec, Hc, Hconn. split; reflexivity.
  - intros k st. pose proof (stop_clears_client k st) as Hnone.
    destruct (stop k st) as [r [s w]]. simpl in *.
    rewrite get_client_spec, Hnone. reflexivity.
Qed.

Lemma get_client_lifecycle_witness :
  let st0 := (new_server "python" ["server.py"] 30, world0) in
  fst (get_client st0) = Raise not_started_error
  /\ (exists c, fst (get_client (snd (start healthy_sdk st0))) = Ok c
                /\ is_connected c = true)
  /\ fst (get_client (snd (stop healthy_sdk (snd (start healthy_sdk st0)))))
     = Raise not_started_error.
Proof.
  destruct get_client_only_when_connected as (_ & Hnew & Hstart & Hstop).
  split; [apply Hnew|]. split; [|apply Hstop].
  destruct (start healthy_sdk (new_server "python" ["server.py"] 30, world0))
    as [r [s' w']] eqn:Hrun.
  apply (Hstart healthy_sdk (new_server "python" ["server.py"] 30) world0 s' w').
  rewrite Hrun. vm_compute in Hrun. injection Hrun as <- _ _. reflexivity.
Defined.

(* ------------------------------ stop -------------------------------- *)

Lemma stop_running k s w c :
  _client s = Some c ->
  stop k (s, w) =
  match disconnect k (c, w) with
  | (Ok _, (_, w')) =>
      (Ok tt, (set_client None s,
               {| trace := trace w';
                  logs := logs w' ++ [(INFO, "MCP test server stopped")];
                  clock := clock w' |}))
  | (Raise e, (_, w')) =>
      if is_Exception e then (Ok tt, (set_client None s, warn_stop e w'))
      else (Raise e, (set_client None s, w'))
  end.
Proof.
  intros Hc. unfold stop. unfold bind at 1. unfold get. simpl.
  rewrite Hc. simpl. rewrite try_finally_update.
  run_server. rewrite Hc.
  destruct (disconnect k (c, w)) as [[[]|e] [c' w']]; simpl; [reflexivity|].
  destruct (is_Exception e); reflexivity.
Qed.

Lemma stop_idle k s w : _client s = None -> stop k (s, w) = (Ok tt, (s, w)).
Proof.
  intros Hc. unfold stop. unfold bind, get. simpl. rewrite Hc. reflexivity.
Qed.

Lemma stop_on_teardown_failure k s w c e c' w' :
  _client s = Some c ->
  disconnect k (c, w) = (Raise e, (c', w')) ->
  stop k (s, w) =
  if is_Exception e
  then (Ok tt, (set_client None s, warn_stop e w'))
  else (Raise e, (set_client None s, w')).
Proof.
  intros Hc Hd. rewrite (stop_running k s w c Hc), Hd. reflexivity.
Qed.

(* -------------------------- wait_for_ready -------------------------- *)

(** The [timeout] argument has no influence on [wait_for_ready]. *)
Theorem wait_for_ready_ignores_timeout k t1 t2 st :
  wait_for_ready k t1 st = wait_for_ready k t2 st.
Proof. destruct st as [s w]. reflexivity. Qed.

(** C2.  A readiness probe that takes 5 ticks under a deadline of 1 tick is
    waited for, and [wait_for_ready] returns normally: no deadline is
    enforced. *)
Lemma wait_for_ready_overruns_deadline :
  let r := wait_for_ready healthy_sdk (Some 1) (running_server, running_world) in
  list_tools_time healthy_sdk = 5
  /\ fst r = Ok tt
  /\ clock (snd (snd r)) - clock running_world = 5.
Proof. repeat split. Qed.

(* ----------------------------- stop_all ----------------------------- *)

Lemma unwind_raises k stack : forall pending st e st',
  unwind k stack pending st = (Raise e, st') ->
  pending = Some e \/ session_exit k = Some e \/ stdio_client_exit k = Some e.
Proof.
  induction stack as [|r stack IH]; intros pending [c w] e st'; simpl.
  - destruct pending; unfold raise, ret; intros H; [left|]; congruence.
  - unfold bind, emit, update_client, modify. simpl. intros H.
    apply IH in H. destruct H as [H | H]; [|right; exact H].
    destruct r; simpl in H.
    + destruct (stdio_client_exit k); [right; right | left]; congruence.
    + destruct (session_exit k); [right; left | left]; congruence.
Qed.

Lemma disconnect_raises k st e st' :
  disconnect k st = (Raise e, st') ->
  session_exit k = Some e \/ stdio_client_exit k = Some e.
Proof.
  destruct st as [c w]. unfold disconnect, bind, get. simpl.
  destruct (is_some (_exit_stack c)).
  - unfold aclose, bind, get. simpl.
    destruct (unwind k _ None (c, w)) as [[[]|e0] st0] eqn:Hu; simpl.
    + unfold update_client, log, modify. simpl. destruct st0. discriminate.
    + intros H. injection H as <- _.
      apply unwind_raises in Hu as [Hu | Hu]; [discriminate | exact Hu].
  - unfold ret, update_client, log, modify. simpl. discriminate.
Qed.

Lemma set_client_same s : _client s = None -> set_client None s = s.
Proof. destruct s. simpl. intros ->. reflexivity. Qed.

Lemma stop_tame k s w :
  tame k = true -> exists w', stop k (s, w) = (Ok tt, (set_client None s, w')).
Proof.
  intros Htame. destruct (_client s) as [c|] eqn:Hc.
  - rewrite (stop_running k s w c Hc).
    destruct (disconnect k (c, w)) as [[[]|e] [c' w']] eqn:Hd.
    + eexists. reflexivity.
    + assert (He : is_Exception e = true).
      { unfold tame in Htame. apply andb_prop in Htame as [H1 H2].
        apply disconnect_raises in Hd as [Hd | Hd]; rewrite Hd in *; assumption. }
      rewrite He. eexists. reflexivity.
  - rewrite (stop_idle k s w Hc), (set_client_same s Hc). eexists. reflexivity.
Qed.

Lemma for_each_stop_one k refs : forall f w,
  (forall ref, tame (k ref) = true) ->
  Forall (fun ref => (ref < length (created f))%nat) refs ->
  exists objs w',
    for_each refs (stop_one k) (f, w) = (Ok tt, (set_created objs f, w'))
    /\ length objs = length (created f)
    /\ Forall (stopped objs) refs
    /\ (forall i, stopped (created f) i -> stopped objs i).
Proof.
  induction refs as [|ref refs IH]; intros f w Htame Hrange.
  - exists (created f), w. simpl. unfold ret. destruct f. repeat split; auto.
  - apply Forall_cons in Hrange as [Href Hrange].
    destruct (lookup_lt_is_Some_2 (created f) ref Href) as [s Hs].
    destruct (stop_tame (k ref) s w (Htame ref)) as [w1 Hstop].
    set (f1 := set_created (<[ref := set_client None s]> (created f)) f).
    assert (Hstep : stop_one k ref (f, w) = (Ok tt, (f1, w1))).
    { unfold stop_one, try_except, try_excepts, on_server. simpl.
      rewrite Hs, Hstop. reflexivity. }
    destruct (IH f1 w1 Htame) as (objs & w' & Hrun & Hlen & Hall & Hkeep).
    { subst f1. simpl. rewrite length_insert. exact Hrange. }
    exists objs, w'. simpl. unfold bind. rewrite Hstep, Hrun.
    subst f1. simpl in *. rewrite length_insert in Hlen.
    assert (Hnow : stopped (<[ref := set_client None s]> (created f)) ref).
    { exists (set_client None s). split; [|reflexivity].
      apply list_lookup_insert_eq, Href. }
    repeat split.
    + exact Hlen.
    + apply Forall_cons. split; [apply Hkeep, Hnow | exact Hall].
    + intros i (si & Hi & Hci). apply Hkeep.
      destruct (decide (i = ref)) as [-> | Hne]; [exact Hnow|].
      exists si. split; [|exact Hci].
      rewrite list_lookup_insert_ne by congruence. exact Hi.
Qed.

Lemma stop_all_completes k f w :
  (forall ref, tame (k ref) = true) ->
  Forall (fun ref => (ref < length (created f))%nat) (_servers f) ->
  exists objs w',
    stop_all k (f, w) = (Ok tt, (set_servers [] (set_created objs f), w'))
    /\ Forall (stopped objs) (_servers f).
Proof.
  intros Htame Hrange.
  destruct (for_each_stop_one k (_servers f) f w Htame Hrange)
    as (objs & w' & Hrun & _ & Hall & _).
  exists objs, w'. split; [|exact Hall].
  unfold stop_all. unfold bind at 1. unfold get. simpl.
  unfold bind. fold (stop_one k). rewrite Hrun. reflexivity.
Qed.

(** C3 (as amended).  A teardown failure raised by the underlying
    [disconnect] reaches the caller of [MCPTestServer.stop] only when it is
    not an [Exception]: an [Exception] is logged as a warning and swallowed
    by [stop] itself, which clears the client reference either way.  Hence
    the factory's [stop_all] completes, with every server it tracks stopped
    and its list cleared, whenever the teardown failures are [Exception]s. *)
Theorem stop_swallows_teardown_failure :
  (forall k s w c e c' w',
     _client s = Some c ->
     disconnect k (c, w) = (Raise e, (c', w')) ->
     stop k (s, w) =
     if is_Exception e
     then (Ok tt, (set_client None s, warn_stop e w'))
     else (Raise e, (set_client None s, w')))
  /\ (forall k f w,
        (forall ref, tame (k ref) = true) ->
        Forall (fun ref => (ref < length (created f))%nat) (_servers f) ->
        exists objs w',
          stop_all k (f, w)
          = (Ok tt, (set_servers [] (set_created objs f), w'))
          /\ Forall (stopped objs) (_servers f)).
Proof.
  split.
  - apply stop_on_teardown_failure.
  - apply stop_all_completes.
Qed.

Lemma stop_swallows_teardown_failure_witness :
  stop (with_session_exit (Some exit_error) healthy_sdk)
    (running_server, running_world)
  = (Ok tt,
     (set_client None running_server,
      {| trace := [Entered Transport; Entered SessionScope;
                   Exited SessionScope; Exited Transport];
         logs := [(WARNING, "Error stopping MCP test server: pipe closed")];
         clock := 0 |})).
Proof.
  exact (proj1 stop_swallows_teardown_failure
           (with_session_exit (Some exit_error) healthy_sdk)
           running_server running_world connected_client exit_error
           _ _ eq_refl eq_refl).
Defined.

(** C3 as stated fails: [disconnect] raises while the session scope is
    exited, and [stop] returns normally. *)
Lemma stop_does_not_propagate :
  let k := with_session_exit (Some exit_error) healthy_sdk in
  fst (disconnect k (connected_client, running_world)) = Raise exit_error
  /\ fst (stop k (running_server, running_world)) = Ok tt.
Proof. split; reflexivity. Qed.

(* ----------------------- assert_tool_returns_error ------------------ *)

Lemma assert_tool_returns_error_spec k tool em st :
  assert_tool_returns_error k tool em st =
  match call_tool k tool st with
  | (Ok _, st') => (Raise (no_failure tool), st')
  | (Raise e, st') =>
      if is_AssertionError e then (Raise e, st')
      else if is_Exception e then
        if message_mismatch em e then (Raise (wrong_failure tool em e), st')
        else (Ok e, st')
      else (Raise e, st')
  end.
Proof.
  unfold assert_tool_returns_error, try_excepts, bind.
  destruct (call_tool k tool st) as [[res|e] st']; simpl.
  - reflexivity.
  - destruct (is_AssertionError e); [reflexivity|].
    destruct (is_Exception e); [|reflexivity].
    unfold message_mismatch. destruct (truthy em && _); reflexivity.
Qed.

Lemma messages_differ tool m e :
  succeeded_message tool <> mismatch_message tool m e.
Proof.
  unfold succeeded_message, mismatch_message. intros H.
  apply (inj (String.app "Tool '")) in H.
  apply (inj (String.app tool)) in H. discriminate H.
Qed.

(** C7 (as amended).  [assert_tool_returns_error]: a call that succeeds is
    an [AssertionError]; a call that fails with an [Exception] other than an
    [AssertionError] is returned to the caller, unless a non-empty
    [error_message] is not a substring of its text, which is an
    [AssertionError] of its own, distinct from the former in message and
    cause. *)
Theorem assert_tool_returns_error_contract k tool em st :
  (forall res st',
     call_tool k tool st = (Ok res, st') ->
     assert_tool_returns_error k tool em st = (Raise (no_failure tool), st'))
  /\ (forall e st',
        call_tool k tool st = (Raise e, st') ->
        is_Exception e = true ->
        is_AssertionError e = false ->
        assert_tool_returns_error k tool em st =
        (if message_mismatch em e then Raise (wrong_failure tool em e) else Ok e,
         st')
        /\ wrong_failure tool em e <> no_failure tool
        /\ exn_str (wrong_failure tool em e) <> exn_str (no_failure tool)).
Proof.
  split.
  - intros res st' Hcall. rewrite assert_tool_returns_error_spec, Hcall.
    reflexivity.
  - intros e st' Hcall He Ha. split; [|split].
    + rewrite assert_tool_returns_error_spec, Hcall, Ha, He.
      destruct (message_mismatch em e); reflexivity.
    + discriminate.
    + simpl. intros H. symmetry in H. exact (messages_differ _ _ _ H).
Qed.

Lemma assert_tool_returns_error_witness :
  let k := with_call_tool (Raise user_not_found) healthy_sdk in
  let st := (connected_client, running_world) in
  fst (assert_tool_returns_error k "get_user" (Some "User not found") st)
  = Ok user_not_found
  /\ fst (assert_tool_returns_error k "get_user" (Some "Timeout") st)
     = Raise (wrong_failure "get_user" (Some "Timeout") user_not_found).
Proof.
  intros k st.
  destruct (call_tool k "get_user" st) as [r st'] eqn:Hcall.
  assert (Hr : r = Raise user_not_found).
  { vm_compute in Hcall. injection Hcall as <- _. reflexivity. }
  subst r. split.
  - rewrite (proj1 (proj2 (assert_tool_returns_error_contract k "get_user"
                       (Some "User not found") st) user_not_found st' Hcall
                       eq_refl eq_refl)).
    reflexivity.
  - rewrite (proj1 (proj2 (assert_tool_returns_error_contract k "get_user"
                       (Some "Timeout") st) user_not_found st' Hcall
                       eq_refl eq_refl)).
    reflexivity.
Defined.

(** C7 as stated fails: the call raises an [AssertionError] whose text
    contains the required substring, and the helper raises it instead of
    returning it. *)
Lemma assertion_failure_is_not_returned :
  let k := with_call_tool (Raise tool_assertion) healthy_sdk in
  let st := (connected_client, running_world) in
  fst (call_tool k "get_user" st) = Raise tool_assertion
  /\ contains "User not found" (exn_str tool_assertion) = true
  /\ fst (assert_tool_returns_error k "get_user" (Some "User not found") st)
     = Raise tool_assertion.
Proof. repeat split. Qed.

(** C9.  An [AssertionError] raised by the tool call itself leaves
    [assert_tool_returns_error] unchanged, whatever [error_message] is: it
    is neither checked against the substring nor returned, and it has the
    class of the failure that reports a tool that did not fail. *)
Theorem assertion_error_reraised k tool em st e st' :
  call_tool k tool st = (Raise e, st') ->
  is_AssertionError e = true ->
  assert_tool_returns_error k tool em st = (Raise e, st')
  /\ exn_cls e = exn_cls (no_failure tool).
Proof.
  intros Hcall Ha. split.
  - rewrite assert_tool_returns_error_spec, Hcall, Ha. reflexivity.
  - destruct e as [[] m c]; try discriminate Ha. reflexivity.
Qed.

Lemma assertion_error_reraised_witness :
  let k := with_call_tool (Raise (no_failure "get_user")) healthy_sdk in
  let st := (connected_client, running_world) in
  fst (assert_tool_returns_error k "get_user" (Some "User not found") st)
  = fst (assert_tool_returns_error healthy_sdk "get_user"
           (Some "User not found") st).
Proof.
  intros k st.
  destruct (call_tool k "get_user" st) as [r st'] eqn:Hcall.
  assert (Hr : r = Raise (no_failure "get_user")).
  { vm_compute in Hcall. injection Hcall as <- _. reflexivity. }
  subst r.
  rewrite (proj1 (assertion_error_reraised k "get_user"
                    (Some "User not found") st _ st' Hcall eq_refl)).
  reflexivity.
Defined.

(* ------------------------------ strings ----------------------------- *)

Lemma str_app_assoc (a b c : string) : (a +:+ b) +:+ c = a +:+ (b +:+ c).
Proof.
  induction a as [|x a IH]; [reflexivity|].
  change (String x ((a +:+ b) +:+ c) = String x (a +:+ (b +:+ c))).
  rewrite IH. reflexivity.
Qed.

Lemma str_app_cons x (a b : string) : String x a +:+ b = String x (a +:+ b).
Proof. reflexivity. Qed.

Lemma str_app_nil (b : string) : EmptyString +:+ b = b.
Proof. reflexivity. Qed.

Lemma str_length_app (a b : string) :
  String.length (a +:+ b) = (String.length a + String.length b)%nat.
Proof.
  induction a as [|x a IH]; [reflexivity|].
  rewrite str_app_cons. simpl. rewrite IH. reflexivity.
Qed.

Lemma rfind_app c (a b : string) i :
  rfind c b = Some i -> rfind c (a +:+ b) = Some (String.length a + i)%nat.
Proof.
  intros Hb. induction a as [|x a IH]; [exact Hb|].
  rewrite str_app_cons. simpl. rewrite IH. reflexivity.
Qed.

Lemma substring_app_l (a b : string) :
  String.substring 0 (String.length a) (a +:+ b) = a.
Proof.
  induction a as [|x a IH].
  - destruct b; reflexivity.
  - rewrite str_app_cons. simpl. rewrite IH. reflexivity.
Qed.

Lemma substring_app_r (a b : string) n :
  String.substring (String.length a) n (a +:+ b) = String.substring 0 n b.
Proof.
  induction a as [|x a IH]; [reflexivity|].
  rewrite str_app_cons. simpl. exact IH.
Qed.

(** The text variant lives next to the JSON record, under [.txt]. *)
Lemma with_suffix_json (p : string) :
  p <> EmptyString -> with_suffix (p +:+ ".json") ".txt" = p +:+ ".txt".
Proof.
  intros Hp.
  assert (Hlen : (0 < String.length p)%nat).
  { destruct p; [congruence | simpl; lia]. }
  assert (Hsuffix : path_suffix (p +:+ ".json") = ".json").
  { unfold path_suffix.
    rewrite (rfind_app "." p ".json" 0 eq_refl), Nat.add_0_r.
    rewrite str_length_app. simpl String.length.
    replace ((0 <? String.length p)%nat) with true
      by (symmetry; apply Nat.ltb_lt; lia).
    replace ((String.length p <? String.length p + 5 - 1)%nat) with true
      by (symmetry; apply Nat.ltb_lt; lia).
    simpl andb. cbv iota.
    replace (String.length p + 5 - String.length p)%nat with 5%nat by lia.
    rewrite substring_app_r. reflexivity. }
  unfold with_suffix. rewrite Hsuffix. cbv iota.
  rewrite str_length_app. simpl String.length.
  replace (String.length p + 5 - 5)%nat with (String.length p) by lia.
  rewrite substring_app_l. reflexivity.
Qed.

Lemma snapshot_path_split h name :
  _get_snapshot_path h name = (test_identity h +:+ "__" +:+ name) +:+ ".json".
Proof. unfold _get_snapshot_path. rewrite !str_app_assoc. reflexivity. Qed.

Lemma text_path_eq h name :
  with_suffix (_get_snapshot_path h name) ".txt" = text_snapshot_path h name.
Proof.
  rewrite snapshot_path_split, with_suffix_json.
  - unfold text_snapshot_path. rewrite !str_app_assoc. reflexivity.
  - destruct (test_identity h); discriminate.
Qed.

Lemma last_char_app (a b : string) :
  b <> EmptyString -> last_char (a +:+ b) = last_char b.
Proof.
  intros Hb. induction a as [|x a IH]; [reflexivity|].
  rewrite str_app_cons. simpl. rewrite IH.
  destruct (a +:+ b) eqn:Hab; [|reflexivity].
  destruct a; [rewrite str_app_nil in Hab; congruence | discriminate].
Qed.

Lemma last_char_json (p : string) : last_char (p +:+ ".json") = Some "n"%char.
Proof. rewrite last_char_app by discriminate. reflexivity. Qed.

Lemma last_char_txt (p : string) : last_char (p +:+ ".txt") = Some "t"%char.
Proof. rewrite last_char_app by discriminate. reflexivity. Qed.

Lemma last_char_text_path h name :
  last_char (text_snapshot_path h name) = Some "t"%char.
Proof.
  unfold text_snapshot_path. rewrite <- !str_app_assoc. apply last_char_txt.
Qed.

Lemma last_char_json_path h name :
  last_char (_get_snapshot_path h name) = Some "n"%char.
Proof. rewrite snapshot_path_split. apply last_char_json. Qed.

Lemma text_path_not_json h name name' :
  _get_snapshot_path h name' <> text_snapshot_path h name.
Proof.
  intros H. pose proof (last_char_json_path h name') as Hj.
  rewrite H, last_char_text_path in Hj. discriminate.
Qed.

(* ------------------------------- glob ------------------------------- *)

Lemma last_char_cons c s x : last_char s = Some x -> last_char (String c s) = Some x.
Proof. destruct s; [discriminate | intros H; exact H]. Qed.

Local Arguments ascii_eqb !a !b /.

Lemma glob_match_json_literal name :
  glob_match ".json" name = true -> last_char name = Some "n"%char.
Proof.
  destruct name as [|c1 [|c2 [|c3 [|c4 [|c5 [|c6 r]]]]]]; simpl;
    rewrite ?andb_false_r; try discriminate.
  intros H. do 4 (apply andb_prop in H as [_ H]).
  apply andb_prop in H as [Hn _].
  apply Ascii.eqb_eq in Hn. subst c5. reflexivity.
Qed.

(** Whatever the pattern starts with, a name it matches ends like the
    pattern. *)
Lemma glob_match_json pattern : forall name,
  glob_match (pattern +:+ ".json") name = true ->
  last_char name = Some "n"%char.
Proof.
  induction pattern as [|p pattern IH]; intros name.
  - apply glob_match_json_literal.
  - rewrite str_app_cons. cbn [glob_match].
    destruct (ascii_eqb p "*"); [|destruct (ascii_eqb p "?")].
    + induction name as [|c name IHname]; intros H.
      * apply orb_prop in H as [H | H]; [apply IH, H | discriminate].
      * apply orb_prop in H as [H | H]; [apply IH, H|].
        apply last_char_cons, IHname, H.
    + destruct name as [|c name]; [discriminate|].
      intros H. apply last_char_cons, IH, H.
    + destruct name as [|c name]; [discriminate|].
      intros H. apply andb_prop in H as [_ H]. apply last_char_cons, IH, H.
Qed.

Lemma text_path_not_listed h name :
  glob_match (test_identity h +:+ "__*.json") (text_snapshot_path h name)
  = false.
Proof.
  destruct (glob_match _ _) eqn:Hm; [|reflexivity].
  change (test_identity h +:+ "__*.json")
    with (test_identity h +:+ ("__*" +:+ ".json")) in Hm.
  rewrite <- str_app_assoc in Hm. apply glob_match_json in Hm.
  rewrite last_char_text_path in Hm. discriminate.
Qed.

(* ------------------------------ sorting ----------------------------- *)

Lemma HdRel_insert_sorted x y l :
  String.le y x -> HdRel String.le y l ->
  HdRel String.le y (insert_sorted id x l).
Proof.
  intros Hyx Hl. destruct l as [|z l]; simpl.
  - constructor. exact Hyx.
  - destruct (String.leb x z); constructor; [exact Hyx|].
    inversion Hl; assumption.
Qed.

Lemma insert_sorted_Sorted x l :
  Sorted String.le l -> Sorted String.le (insert_sorted id x l).
Proof.
  induction 1 as [|y l Hl IH Hy]; simpl.
  - repeat constructor.
  - destruct (String.leb x y) eqn:Hxy.
    + constructor; [constructor; assumption|].
      constructor. unfold String.le. simpl. rewrite Hxy. exact I.
    + constructor; [exact IH|].
      apply HdRel_insert_sorted; [|exact Hy].
      destruct (total String.le x y) as [H | H]; [|exact H].
      unfold String.le in H. rewrite Hxy in H. destruct H.
Qed.

Lemma py_sorted_Sorted l : Sorted String.le (py_sorted id l).
Proof.
  induction l as [|x l IH]; simpl; [constructor|].
  apply insert_sorted_Sorted, IH.
Qed.

(** [sorted] does not depend on the order in which the directory was
    listed. *)
Lemma py_sorted_permutation l1 l2 :
  l1 ≡ₚ l2 -> py_sorted id l1 = py_sorted id l2.
Proof.
  intros Hperm. apply (Sorted_unique String.le).
  - apply py_sorted_Sorted.
  - apply py_sorted_Sorted.
  - rewrite !py_sorted_perm. exact Hperm.
Qed.

Lemma glob_insert_text h name content (fs : files) :
  glob (<[text_snapshot_path h name := content]> fs)
       (test_identity h +:+ "__*.json")
  ≡ₚ glob fs (test_identity h +:+ "__*.json").
Proof.
  unfold glob. rewrite dom_insert_L.
  destruct (decide (text_snapshot_path h name ∈ dom fs)) as [Hin | Hnot].
  - assert (Hsame : {[text_snapshot_path h name]} ∪ dom fs = dom fs).
    { apply set_eq. intros x. rewrite elem_of_union, elem_of_singleton.
      split; [intros [-> | Hx]; assumption | intros Hx; right; exact Hx]. }
    rewrite Hsame. reflexivity.
  - rewrite elements_union_singleton by exact Hnot.
    rewrite filter_cons_False; [reflexivity|].
    rewrite text_path_not_listed. discriminate.
Qed.

(* --------------------------- the snapshot store --------------------- *)

Ltac run_store :=
  repeat (progress
    (unfold pytest_skip, write_text, read_text, unlink, deserialize,
       try_except, try_excepts, try_finally, bind, ret, raise, get, modify
       in *; simpl in *)).

Local Arguments json_loads : simpl never.
Local Arguments json_dumps : simpl never.
Local Arguments py_eq : simpl never.
Local Arguments with_suffix : simpl never.
Local Arguments _get_snapshot_path : simpl never.
Local Arguments glob : simpl never.
Local Arguments py_sorted : simpl never.

(** What [assert_match_text] leaves in the directory. *)
Lemma assert_match_text_store h content name update (fs : files) :
  snd (assert_match_text h content name update fs) =
  if should_update h update
     || negb (path_exists fs (text_snapshot_path h name))
  then <[text_snapshot_path h name := content]> fs
  else fs.
Proof.
  unfold assert_match_text. rewrite text_path_eq. unfold bind at 1, get.
  destruct (should_update h update) eqn:Hu; simpl; [reflexivity|].
  unfold path_exists.
  destruct (fs !! text_snapshot_path h name) as [old|] eqn:Hold; simpl.
  - unfold read_text, bind, get, ret, raise. rewrite Hold.
    destruct (negb (String.eqb content old)); reflexivity.
  - reflexivity.
Qed.

Lemma get_snapshot_spec h name (fs : files) :
  get_snapshot h name fs =
  (match fs !! _get_snapshot_path h name with
   | None => Ok None
   | Some json_str =>
       match _deserialize json_str with
       | Some d => Ok (Some d)
       | None => Raise (Exn JSONDecodeError "Expecting value" None)
       end
   end, fs).
Proof.
  unfold get_snapshot, path_exists, bind, get.
  destruct (fs !! _get_snapshot_path h name) as [json_str|] eqn:Hp; simpl;
    [|reflexivity].
  unfold read_text, bind, get, ret. rewrite Hp. unfold deserialize.
  destruct (_deserialize json_str); reflexivity.
Qed.

Lemma delete_snapshot_spec h name (fs : files) :
  delete_snapshot h name fs = (Ok tt, delete (_get_snapshot_path h name) fs).
Proof.
  unfold delete_snapshot, path_exists, bind, get.
  destruct (fs !! _get_snapshot_path h name) eqn:Hp; simpl; [reflexivity|].
  unfold ret. f_equal. symmetry. apply delete_id, Hp.
Qed.

Lemma list_snapshots_insert_text h name content (fs : files) :
  fst (list_snapshots h (<[text_snapshot_path h name := content]> fs))
  = fst (list_snapshots h fs).
Proof.
  unfold list_snapshots. run_store. f_equal.
  apply py_sorted_permutation, Permutation_map, glob_insert_text.
Qed.

Lemma text_snapshot_frame h content name update (fs : files) name' :
  let fs' := snd (assert_match_text h content name update fs) in
  let txt := text_snapshot_path h name in
  with_suffix (_get_snapshot_path h name) ".txt" = txt
  /\ is_Some (fs' !! txt)
  /\ fst (get_snapshot h name' fs') = fst (get_snapshot h name' fs)
  /\ (if path_exists fs (_get_snapshot_path h name) then True
      else get_snapshot h name fs' = (Ok None, fs'))
  /\ snd (delete_snapshot h name' fs') !! txt = fs' !! txt
  /\ fst (list_snapshots h fs') = fst (list_snapshots h fs).
Proof.
  intros fs' txt. subst fs' txt. rewrite assert_match_text_store.
  set (txt := text_snapshot_path h name).
  assert (Hframe : forall name0 (fs0 : files),
            <[txt := content]> fs0 !! _get_snapshot_path h name0
            = fs0 !! _get_snapshot_path h name0).
  { intros name0 fs0. apply lookup_insert_ne. intros Heq.
    exact (text_path_not_json h name name0 (eq_sym Heq)). }
  split; [apply text_path_eq|].
  destruct (should_update h update || negb (path_exists fs txt)) eqn:Hw.
  - split; [rewrite lookup_insert_eq; eexists; reflexivity|].
    split; [rewrite !get_snapshot_spec; simpl; rewrite Hframe; reflexivity|].
    split.
    { unfold path_exists.
      destruct (fs !! _get_snapshot_path h name) eqn:Hj; simpl; [exact I|].
      rewrite get_snapshot_spec, Hframe, Hj. reflexivity. }
    split; [|apply list_snapshots_insert_text].
    rewrite delete_snapshot_spec. simpl. apply lookup_delete_ne.
    apply text_path_not_json.
  - apply orb_false_elim in Hw as [_ Hex]. apply negb_false_iff in Hex.
    unfold path_exists in Hex.
    split; [destruct (fs !! txt); [eexists; reflexivity | discriminate]|].
    split; [reflexivity|].
    split.
    { unfold path_exists.
      destruct (fs !! _get_snapshot_path h name) eqn:Hj; simpl; [exact I|].
      rewrite get_snapshot_spec, Hj. reflexivity. }
    split; [|reflexivity].
    rewrite delete_snapshot_spec. simpl. apply lookup_delete_ne.
    apply text_path_not_json.
Qed.

(** C10.  [assert_match_text] keeps its text under the [.txt] name.  That
    file does not change what [get_snapshot] returns (the absent-marker when
    there is no JSON record of that name), is left in place by
    [delete_snapshot], is not matched by the pattern of [list_snapshots]
    and does not change what [list_snapshots] lists. *)
Theorem text_snapshot_invisible h content name update (fs : files) name' :
  let fs' := snd (assert_match_text h content name update fs) in
  let txt := text_snapshot_path h name in
  with_suffix (_get_snapshot_path h name) ".txt" = txt
  /\ is_Some (fs' !! txt)
  /\ fst (get_snapshot h name' fs') = fst (get_snapshot h name' fs)
  /\ (if path_exists fs (_get_snapshot_path h name) then True
      else get_snapshot h name fs' = (Ok None, fs'))
  /\ snd (delete_snapshot h name' fs') !! txt = fs' !! txt
  /\ glob_match (test_identity h +:+ "__*.json") txt = false
  /\ fst (list_snapshots h fs') = fst (list_snapshots h fs).
Proof.
  intros fs' txt.
  destruct (text_snapshot_frame h content name update fs name')
    as (Hpath & Hstored & Hget & Habsent & Hdelete & Hlist).
  repeat split; try assumption.
  apply text_path_not_listed.
Qed.




Lemma serialize_decodes value :
  exists actual,
    _deserialize (_serialize value) = Some actual
    /\ py_eq actual actual = true.
Proof.
  destruct value as [v | v | v]; exists (to_jdata v);
    (split; [apply json_loads_dumps | apply py_eq_to_jdata_refl]).
Qed.

(** The comparison branch of [assert_match]. *)
Lemma assert_match_compare h value name update (fs : files)
    expected_json expected actual :
  should_update h update = false ->
  fs !! _get_snapshot_path h name = Some expected_json ->
  _deserialize expected_json = Some expected ->
  _deserialize (_serialize value) = Some actual ->
  assert_match h value name update fs =
  (if py_eq actual expected then Ok tt
   else Raise (Exn AssertionError
                 (snapshot_mismatch_message name expected_json
                    (_serialize value)) None),
   fs).
Proof.
  intros Hu Hp He Ha.
  unfold assert_match, bind at 1, get. rewrite Hu. unfold path_exists.
  rewrite Hp. simpl.
  unfold read_text, bind, get, ret, raise. rewrite Hp.
  unfold deserialize. rewrite He, Ha. unfold ret. simpl.
  destruct (py_eq actual expected); reflexivity.
Qed.

(** The first-encounter branch of [assert_match]. *)
Lemma assert_match_first h value name update (fs : files) :
  should_update h update = false ->
  fs !! _get_snapshot_path h name = None ->
  assert_match h value name update fs =
  (Ok tt, <[_get_snapshot_path h name := _serialize value]> fs).
Proof.
  intros Hu Hp.
  unfold assert_match, bind at 1, get. rewrite Hu. unfold path_exists.
  rewrite Hp. reflexivity.
Qed.

Lemma assert_match_twice h value name update (fs : files) :
  should_update h update = false ->
  fs !! _get_snapshot_path h name = None ->
  (assert_match h value name update ;; assert_match h value name update) fs
  = (Ok tt, <[_get_snapshot_path h name := _serialize value]> fs).
Proof.
  intros Hu Hp. unfold bind.
  rewrite (assert_match_first h value name update fs Hu Hp).
  destruct (serialize_decodes value) as (actual & Hact & Hrefl).
  rewrite (assert_match_compare h value name update _ (_serialize value)
             actual actual Hu (lookup_insert_eq _ _ _) Hact Hact).
  rewrite Hrefl. reflexivity.
Qed.











(* ===================================================================== *)
(** ** Further properties of the client, the server, the snapshot store
    and the assertions *)
(* ===================================================================== *)

Lemma connect_succeeds k c w rd wr s :
  _session c = None ->
  steps_succeed k rd wr s ->
  connect k (c, w) =
  (Ok tt,
   ({| _session := Some s; _read_stream := Some rd; _write_stream := Some wr;
       _exit_stack := Some [SessionScope; Transport] |},
    add_log DEBUG "MockMCPClient connected successfully"
      (add_events [Entered Transport; Entered SessionScope] w))).
Proof.
  intros Hc (Hs & Hn & Hi). destruct c as [ses r0 w0 st]. simpl in Hc.
  subst ses. run_client. rewrite Hs. run_client. rewrite Hn. run_client.
  rewrite Hi. run_client. unfold add_log, add_events. simpl.
  rewrite <- app_assoc. reflexivity.
Qed.

Lemma unwind_runs_all k stack : forall pending c w,
  unwind k stack pending (c, w) =
  (match pending_after k stack pending with
   | Some e => Raise e
   | None => Ok tt
   end,
   (match stack with
    | [] => c
    | _ :: _ => set_exit_stack (Some []) c
    end,
    add_events (map Exited stack) w)).
Proof.
  induction stack as [|r stack IH]; intros pending c w.
  - simpl. unfold add_events. simpl. rewrite app_nil_r.
    destruct w. destruct pending; reflexivity.
  - simpl. unfold bind, emit, update_client, modify. simpl. rewrite IH.
    unfold add_events. simpl. rewrite <- app_assoc. simpl.
    destruct stack; reflexivity.
Qed.

Lemma disconnect_spec k c w :
  disconnect k (c, w) =
  match _exit_stack c with
  | Some stack =>
      match pending_after k stack None with
      | Some e =>
          (Raise e, (set_exit_stack (Some []) c,
                     add_events (map Exited stack) w))
      | None =>
          (Ok tt, (new_client,
                   add_log DEBUG "MockMCPClient disconnected"
                     (add_events (map Exited stack) w)))
      end
  | None =>
      (Ok tt, (new_client, add_log DEBUG "MockMCPClient disconnected" w))
  end.
Proof.
  destruct c as [ses rd wr [stack|]]; unfold disconnect; run_client.
  - rewrite unwind_runs_all. simpl.
    destruct (pending_after k stack None); simpl.
    + destruct stack; reflexivity.
    + destruct stack; reflexivity.
  - reflexivity.
Qed.

Lemma pending_after_clean k stack :
  exits_clean k -> pending_after k stack None = None.
Proof.
  intros [Hs Ht]. induction stack as [|r stack IH]; [reflexivity|].
  simpl. destruct r; simpl; rewrite ?Hs, ?Ht; exact IH.
Qed.

(** X1. Connecting and then disconnecting exits the two scopes in the
    reverse order of entry and gives back a client with nothing set. *)
Theorem connect_disconnect_round_trip k c w rd wr s :
  _session c = None ->
  steps_succeed k rd wr s ->
  exits_clean k ->
  exists w',
    (connect k ;; disconnect k) (c, w) = (Ok tt, (new_client, w'))
    /\ trace w' = trace w ++ [Entered Transport; Entered SessionScope;
                              Exited SessionScope; Exited Transport]
    /\ live_handles (trace w') = live_handles (trace w).
Proof.
  intros Hc Hsteps Hclean. eexists. split; [|split].
  - unfold bind. rewrite (connect_succeeds k c w rd wr s Hc Hsteps).
    rewrite disconnect_spec. simpl _exit_stack. cbv iota.
    rewrite (pending_after_clean k _ Hclean). reflexivity.
  - simpl. rewrite <- app_assoc. reflexivity.
  - simpl. rewrite <- app_assoc, live_handles_app. reflexivity.
Qed.

Lemma connect_disconnect_round_trip_witness :
  fst ((connect healthy_sdk ;; disconnect healthy_sdk) (new_client, world0))
  = Ok tt
  /\ fst (snd ((connect healthy_sdk ;; disconnect healthy_sdk)
                 (new_client, world0))) = new_client.
Proof.
  destruct (connect_disconnect_round_trip healthy_sdk new_client world0
              1%nat 2%nat 7%nat eq_refl
              (conj eq_refl (conj eq_refl eq_refl)) (conj eq_refl eq_refl))
    as (w' & Hrun & _).
  rewrite Hrun. split; reflexivity.
Defined.

(** X2. [connect] on a client that is connected enters no scope and changes
    nothing but the log, whatever the server would do. *)
Theorem connect_when_connected k k2 c w c1 w1 :
  connect k (c, w) = (Ok tt, (c1, w1)) ->
  connect k2 (c1, w1)
  = (Ok tt, (c1, add_log WARNING "Client is already connected" w1)).
Proof.
  intros Hconnect. apply connect_ok_connected in Hconnect.
  unfold is_connected in Hconnect.
  unfold connect, bind, get. simpl. rewrite Hconnect. reflexivity.
Qed.

Lemma connect_when_connected_witness :
  let st := snd (connect healthy_sdk (new_client, world0)) in
  fst (snd (connect (with_initialize (Raise handshake_error) healthy_sdk) st))
  = fst st
  /\ trace (snd (snd (connect
                        (with_initialize (Raise handshake_error) healthy_sdk)
                        st)))
     = trace (snd st).
Proof.
  intros st.
  destruct (connect healthy_sdk (new_client, world0)) as [r [c1 w1]] eqn:Hrun.
  assert (Hr : r = Ok tt) by (vm_compute in Hrun; injection Hrun as <- _; reflexivity).
  subst r st. simpl snd.
  rewrite (connect_when_connected healthy_sdk
             (with_initialize (Raise handshake_error) healthy_sdk)
             new_client world0 c1 w1 Hrun).
  split; reflexivity.
Defined.

(** X3. Once [disconnect] has returned, the client has nothing set and a
    further [disconnect] exits no scope, whatever the SDK would do. *)
Theorem disconnect_idempotent k k2 c w c1 w1 :
  disconnect k (c, w) = (Ok tt, (c1, w1)) ->
  c1 = new_client
  /\ disconnect k2 (c1, w1)
     = (Ok tt, (new_client, add_log DEBUG "MockMCPClient disconnected" w1)).
Proof.
  rewrite disconnect_spec. intros H.
  assert (Hc1 : c1 = new_client).
  { destruct (_exit_stack c) as [stack|];
      [destruct (pending_after k stack None)|];
      try discriminate H; injection H as <- _; reflexivity. }
  subst c1. split; [reflexivity|]. rewrite disconnect_spec. reflexivity.
Qed.

Lemma disconnect_idempotent_witness :
  disconnect (with_session_exit (Some exit_error) healthy_sdk)
    (snd (disconnect healthy_sdk (connected_client, running_world)))
  = (Ok tt,
     (new_client,
      add_log DEBUG "MockMCPClient disconnected"
        (snd (snd (disconnect healthy_sdk (connected_client, running_world)))))).
Proof.
  destruct (disconnect healthy_sdk (connected_client, running_world))
    as [r [c1 w1]] eqn:Hrun.
  assert (Hr : r = Ok tt) by (vm_compute in Hrun; injection Hrun as <- _; reflexivity).
  subst r. simpl snd.
  exact (proj2 (disconnect_idempotent healthy_sdk
                  (with_session_exit (Some exit_error) healthy_sdk)
                  connected_client running_world c1 w1 Hrun)).
Defined.

(** X4. When exiting a scope raises, [disconnect] still runs the exit of
    every scope, once and last entered first, and lets the exception
    through without resetting the session: the client still counts as
    connected.  A second [disconnect] then resets it and exits nothing. *)
Theorem disconnect_failure_then_retry k k2 c w stack e c1 w1 :
  _exit_stack c = Some stack ->
  disconnect k (c, w) = (Raise e, (c1, w1)) ->
  c1 = set_exit_stack (Some []) c
  /\ is_connected c1 = is_connected c
  /\ w1 = add_events (map Exited stack) w
  /\ disconnect k2 (c1, w1)
     = (Ok tt, (new_client, add_log DEBUG "MockMCPClient disconnected" w1)).
Proof.
  intros Hstack. rewrite disconnect_spec, Hstack.
  destruct (pending_after k stack None) as [e'|]; [|discriminate].
  intros H. injection H as _ <- <-.
  split; [reflexivity|]. split; [reflexivity|]. split; [reflexivity|].
  rewrite disconnect_spec. simpl.
  unfold add_events, add_log. simpl. rewrite app_nil_r. reflexivity.
Qed.

Lemma disconnect_failure_then_retry_witness :
  let k := with_session_exit (Some exit_error) healthy_sdk in
  let st := snd (disconnect k (connected_client, running_world)) in
  fst (disconnect k (connected_client, running_world)) = Raise exit_error
  /\ is_connected (fst st) = true
  /\ trace (snd st) = [Entered Transport; Entered SessionScope;
                       Exited SessionScope; Exited Transport]
  /\ fst (disconnect k st) = Ok tt.
Proof.
  intros k st.
  destruct (disconnect k (connected_client, running_world))
    as [r [c1 w1]] eqn:Hrun.
  assert (Hr : r = Raise exit_error)
    by (vm_compute in Hrun; injection Hrun as <- _; reflexivity).
  subst r st. cbn [fst snd].
  destruct (disconnect_failure_then_retry k k connected_client running_world
              [SessionScope; Transport] exit_error c1 w1 eq_refl Hrun)
    as (Hc1 & Hconn & Hw1 & Hretry).
  rewrite Hretry, Hconn, Hw1. repeat split.
Defined.

Lemma call_tool_spec k name c w :
  call_tool k name (c, w) =
  match _session c with
  | None => (Raise not_connected_error, (c, w))
  | Some _ =>
      match call_tool_reply k with
      | Ok result =>
          (Ok result,
           (c, add_log DEBUG ("Tool '" +:+ name +:+ "' called successfully") w))
      | Raise e =>
          (Raise e,
           (c, if is_Exception e
               then add_log ERROR ("Tool '" +:+ name +:+ "' call failed: "
                                   +:+ exn_str e) w
               else w))
      end
  end.
Proof.
  unfold call_tool. run_client.
  destruct (_session c); [|reflexivity]. simpl.
  destruct (call_tool_reply k) as [result|e]; simpl; [reflexivity|].
  destruct (is_Exception e); reflexivity.
Qed.

Lemma list_tools_spec k c w :
  list_tools k (c, w) =
  match _session c with
  | None => (Raise not_connected_error, (c, w))
  | Some _ =>
      (list_tools_reply k,
       (c, {| trace := trace w; logs := logs w;
              clock := clock w + list_tools_time k |}))
  end.
Proof.
  unfold list_tools. run_client.
  destruct (_session c); [|reflexivity]. simpl.
  destruct (list_tools_reply k); reflexivity.
Qed.

(** X5. On a client that is not connected, [list_tools], [call_tool] and
    [get_tool] raise the "not connected" [RuntimeError] before anything is
    sent: nothing is logged, no time passes, nothing changes. *)
Theorem operations_need_connection k name c w :
  _session c = None ->
  list_tools k (c, w) = (Raise not_connected_error, (c, w))
  /\ call_tool k name (c, w) = (Raise not_connected_error, (c, w))
  /\ get_tool k name (c, w) = (Raise not_connected_error, (c, w)).
Proof.
  intros Hc. split; [|split].
  - rewrite list_tools_spec, Hc. reflexivity.
  - rewrite call_tool_spec, Hc. reflexivity.
  - unfold get_tool, bind. rewrite list_tools_spec, Hc. reflexivity.
Qed.

Lemma operations_need_connection_witness :
  fst (call_tool healthy_sdk "add" (new_client, world0))
  = Raise not_connected_error
  /\ snd (call_tool healthy_sdk "add" (new_client, world0))
     = (new_client, world0).
Proof.
  destruct (operations_need_connection healthy_sdk "add" new_client world0
              eq_refl) as (_ & Hcall & _).
  rewrite Hcall. split; reflexivity.
Defined.

(** X6. On a connected client, [call_tool] hands the outcome of the server
    to the caller as it is, result or failure; it enters or exits no scope
    and leaves the client as it is. *)
Theorem call_tool_passes_outcome_through k name c w s :
  _session c = Some s ->
  fst (call_tool k name (c, w)) = call_tool_reply k
  /\ fst (snd (call_tool k name (c, w))) = c
  /\ trace (snd (snd (call_tool k name (c, w)))) = trace w.
Proof.
  intros Hc. rewrite call_tool_spec, Hc.
  destruct (call_tool_reply k) as [result|e]; simpl; [repeat split|].
  destruct (is_Exception e); repeat split.
Qed.

Lemma call_tool_passes_outcome_through_witness :
  fst (call_tool (with_call_tool (Raise user_not_found) healthy_sdk) "get_user"
         (connected_client, running_world))
  = Raise user_not_found.
Proof.
  exact (proj1 (call_tool_passes_outcome_through
                  (with_call_tool (Raise user_not_found) healthy_sdk)
                  "get_user" connected_client running_world 7%nat eq_refl)).
Defined.

(** X7. [get_tool] returns the first listed tool of that name, and [None]
    exactly when the server lists no tool of that name. *)
Theorem get_tool_finds_first k name c w s tools :
  _session c = Some s ->
  list_tools_reply k = Ok tools ->
  match fst (get_tool k name (c, w)) with
  | Ok (Some tool) =>
      exists before after,
        tools = before ++ tool :: after
        /\ tool_name tool = name
        /\ Forall (fun t => tool_name t <> name) before
  | Ok None => Forall (fun t => tool_name t <> name) tools
  | Raise _ => False
  end.
Proof.
  intros Hc Hreply. unfold get_tool, bind. rewrite list_tools_spec, Hc, Hreply.
  unfold ret. simpl. clear Hreply.
  induction tools as [|t tools IH]; simpl; [constructor|].
  destruct (String.eqb_spec (tool_name t) name) as [Heq | Hne].
  - exists [], tools. repeat split; [exact Heq | constructor].
  - destruct (find _ tools) as [tool|].
    + destruct IH as (before & after & -> & Hname & Hbefore).
      exists (t :: before), after. repeat split; [exact Hname|].
      constructor; assumption.
    + constructor; assumption.
Qed.

Lemma get_tool_finds_first_witness :
  fst (get_tool (with_list_tools (Ok sample_tools) healthy_sdk) "dup"
         (connected_client, running_world))
  = Ok (Some {| tool_name := "dup"; tool_description := "first" |})
  /\ Forall (fun t => tool_name t <> "mul"%string) sample_tools.
Proof.
  split; [reflexivity|].
  exact (get_tool_finds_first (with_list_tools (Ok sample_tools) healthy_sdk)
           "mul" connected_client running_world 7%nat sample_tools
           eq_refl eq_refl).
Defined.

(** X8. A body run under [async with] on the client gets its outcome, result
    or exception, handed through, and when the block is left every scope
    the body left on the stack has been exited and the client has nothing
    set; when connecting fails the body does not run. *)
Theorem client_context_releases {A} k (body : M client_state A) c w :
  exits_clean k ->
  match connect k (c, w) with
  | (Raise e, st1) => client_context k body (c, w) = (Raise e, st1)
  | (Ok _, st1) =>
      forall r c2 w2 stack,
        body st1 = (r, (c2, w2)) ->
        _exit_stack c2 = Some stack ->
        client_context k body (c, w)
        = (r, (new_client,
               add_log DEBUG "MockMCPClient disconnected"
                 (add_events (map Exited stack) w2)))
  end.
Proof.
  intros Hclean. unfold client_context, bind.
  destruct (connect k (c, w)) as [[[]|e] st1]; [|reflexivity].
  intros r c2 w2 stack Hbody Hstack. unfold try_finally. rewrite Hbody.
  rewrite disconnect_spec, Hstack, (pending_after_clean k stack Hclean).
  reflexivity.
Qed.

Lemma client_context_releases_witness :
  let body := call_tool (with_call_tool (Raise user_not_found) healthy_sdk)
                "get_user" in
  let k := with_call_tool (Raise user_not_found) healthy_sdk in
  fst (client_context k body (new_client, world0)) = Raise user_not_found
  /\ fst (snd (client_context k body (new_client, world0))) = new_client
  /\ trace (snd (snd (client_context k body (new_client, world0))))
     = [Entered Transport; Entered SessionScope;
        Exited SessionScope; Exited Transport].
Proof.
  intros body k.
  pose proof (client_context_releases k body new_client world0
                (conj eq_refl eq_refl)) as H.
  destruct (connect k (new_client, world0)) as [r st1] eqn:Hconnect.
  vm_compute in Hconnect. injection Hconnect as <- <-.
  destruct (body (connected_client,
                  {| trace := [Entered Transport; Entered SessionScope];
                     logs := [(DEBUG, "MockMCPClient connected successfully")];
                     clock := 0 |})) as [r [c2 w2]] eqn:Hbody.
  assert (Hstack : _exit_stack c2 = Some [SessionScope; Transport]).
  { vm_compute in Hbody. injection Hbody as _ <- _. reflexivity. }
  rewrite (H r c2 w2 [SessionScope; Transport] Hbody Hstack).
  vm_compute in Hbody. injection Hbody as <- <- <-. repeat split.
Defined.

(** X9. On a client that is not connected, the "not connected"
    [RuntimeError] of [call_tool] counts as the failure
    [assert_tool_returns_error] waits for: it is returned, unless a
    non-empty [error_message] is not part of its text. *)
Theorem disconnected_client_meets_error_expectation k tool em c w :
  _session c = None ->
  assert_tool_returns_error k tool em (c, w) =
  (if message_mismatch em not_connected_error
   then Raise (wrong_failure tool em not_connected_error)
   else Ok not_connected_error, (c, w)).
Proof.
  intros Hc. rewrite assert_tool_returns_error_spec, call_tool_spec, Hc.
  simpl. destruct (message_mismatch em not_connected_error); reflexivity.
Qed.

Lemma disconnected_client_meets_error_expectation_witness :
  fst (assert_tool_returns_error healthy_sdk "divide" None (new_client, world0))
  = Ok not_connected_error.
Proof.
  rewrite (disconnected_client_meets_error_expectation healthy_sdk "divide"
             None new_client world0 eq_refl).
  reflexivity.
Defined.

Lemma start_spec k s w :
  start k (s, w) =
  match connect k (new_client, add_log INFO (starting_message s) w) with
  | (Ok _, (c1, w1)) =>
      (Ok tt, (set_client (Some c1) s,
               add_log INFO "MCP test server started successfully" w1))
  | (Raise e, (c1, w1)) =>
      if is_Exception e then
        match stop k (set_client (Some c1) s,
                      add_log ERROR ("Failed to start MCP test server: "
                                     +:+ exn_str e) w1) with
        | (Ok _, st) => (Raise (start_error e), st)
        | (Raise e', st) => (Raise e', st)
        end
      else (Raise e, (set_client (Some c1) s, w1))
  end.
Proof.
  unfold start. run_server. unfold add_log, starting_message.
  destruct (connect k _) as [[[]|e] [c1 w1]]; simpl; [reflexivity|].
  destruct (is_Exception e); [|reflexivity].
  destruct (stop k _) as [[[]|e'] st]; reflexivity.
Qed.

(** X10. When connecting fails with an [Exception] and the clean-up raises
    nothing but [Exception]s, [start] raises one [RuntimeError] whose cause
    is the connection failure and leaves the manager without client. *)
Theorem start_failure_wraps k s w e c1 w1 :
  connect k (new_client, add_log INFO (starting_message s) w)
  = (Raise e, (c1, w1)) ->
  is_Exception e = true ->
  tame k = true ->
  exists w',
    start k (s, w) = (Raise (start_error e), (set_client None s, w'))
    /\ is_running (set_client None s) = false.
Proof.
  intros Hconnect He Htame. rewrite start_spec, Hconnect, He.
  destruct (stop_tame k (set_client (Some c1) s)
              (add_log ERROR ("Failed to start MCP test server: "
                              +:+ exn_str e) w1) Htame) as [w' Hstop].
  rewrite Hstop. exists w'. split; reflexivity.
Qed.

Lemma start_failure_wraps_witness :
  let k := with_initialize (Raise handshake_error) healthy_sdk in
  fst (start k (new_server "python" ["server.py"] 30, world0))
  = Raise (start_error (connection_error handshake_error))
  /\ fst (snd (start k (new_server "python" ["server.py"] 30, world0)))
     = new_server "python" ["server.py"] 30.
Proof.
  intros k.
  destruct (connect k (new_client,
                       add_log INFO
                         (starting_message (new_server "python" ["server.py"] 30))
                         world0)) as [r [c1 w1]] eqn:Hconnect.
  assert (Hr : r = Raise (connection_error handshake_error)).
  { vm_compute in Hconnect. injection Hconnect as <- _. reflexivity. }
  subst r.
  destruct (start_failure_wraps k (new_server "python" ["server.py"] 30)
              world0 _ c1 w1 Hconnect eq_refl eq_refl) as (w' & Hstart & _).
  rewrite Hstart. split; reflexivity.
Defined.

(** X11. [start] connects a new client and drops the reference to the one
    the manager held, without disconnecting it: on a running manager the
    scopes of the earlier connection are never exited. *)
Theorem start_replaces_client k s w rd wr ses :
  steps_succeed k rd wr ses ->
  exists c w',
    start k (s, w) = (Ok tt, (set_client (Some c) s, w'))
    /\ is_connected c = true
    /\ trace w' = trace w ++ [Entered Transport; Entered SessionScope]
    /\ live_handles (trace w')
       = SessionScope :: Transport :: live_handles (trace w).
Proof.
  intros Hsteps. rewrite start_spec.
  rewrite (connect_succeeds k new_client _ rd wr ses eq_refl Hsteps).
  eexists _, _. split; [reflexivity|]. split; [reflexivity|].
  simpl. split; [reflexivity|]. rewrite live_handles_app. reflexivity.
Qed.

Lemma start_replaces_client_witness :
  let st := snd (start healthy_sdk (running_server, running_world)) in
  live_handles (trace (snd st))
  = [SessionScope; Transport; SessionScope; Transport]
  /\ live_handles (trace (snd (snd (stop healthy_sdk st))))
     = [SessionScope; Transport].
Proof.
  intros st.
  destruct (start_replaces_client healthy_sdk running_server running_world
              1%nat 2%nat 7%nat (conj eq_refl (conj eq_refl eq_refl)))
    as (c & w' & Hstart & _ & _ & Hlive).
  subst st. rewrite Hstart. cbn [fst snd]. split; [exact Hlive|].
  vm_compute in Hstart. injection Hstart as <- <-. reflexivity.
Defined.

(** X12. [restart] on a running manager exits the scopes of the old
    connection, last entered first, before it enters those of the new
    one. *)
Theorem restart_reconnects k s w c stack rd wr ses :
  _client s = Some c ->
  _exit_stack c = Some stack ->
  exits_clean k ->
  steps_succeed k rd wr ses ->
  exists c' w',
    restart k (s, w) = (Ok tt, (set_client (Some c') s, w'))
    /\ is_connected c' = true
    /\ trace w' = trace w ++ map Exited stack
                  ++ [Entered Transport; Entered SessionScope].
Proof.
  intros Hc Hstack Hclean Hsteps. unfold restart, bind, log, modify. simpl.
  rewrite (stop_running k s _ c Hc), disconnect_spec, Hstack.
  rewrite (pending_after_clean k stack Hclean).
  destruct (start_replaces_client k (set_client None s)
              {| trace := trace w ++ map Exited stack;
                 logs := ((logs w ++ [(INFO, "Restarting MCP test server")])
                          ++ [(DEBUG, "MockMCPClient disconnected")])
                         ++ [(INFO, "MCP test server stopped")];
                 clock := clock w |} rd wr ses Hsteps)
    as (c' & w' & Hstart & Hconn & Htrace & _).
  exists c', w'. unfold add_log, add_events. simpl.
  rewrite Hstart. split; [destruct s; reflexivity|].
  split; [exact Hconn|]. rewrite Htrace. simpl. rewrite <- app_assoc.
  reflexivity.
Qed.

Lemma restart_reconnects_witness :
  trace (snd (snd (restart healthy_sdk (running_server, running_world))))
  = [Entered Transport; Entered SessionScope;
     Exited SessionScope; Exited Transport;
     Entered Transport; Entered SessionScope].
Proof.
  destruct (restart_reconnects healthy_sdk running_server running_world
              connected_client [SessionScope; Transport] 1%nat 2%nat 7%nat
              eq_refl eq_refl (conj eq_refl eq_refl)
              (conj eq_refl (conj eq_refl eq_refl)))
    as (c' & w' & Hrestart & _ & Htrace).
  rewrite Hrestart. exact Htrace.
Defined.

(** X13. [wait_for_ready] turns the "not started" error of a manager that is
    not running, and every [Exception] of the probe, into a [TimeoutError]
    with that cause; an exception that is no [Exception] passes unchanged;
    a probe that answers makes it return, after the time the probe took. *)
Theorem wait_for_ready_outcomes k t s w :
  wait_for_ready k t (s, w) =
  if is_running s then
    match list_tools_reply k with
    | Ok _ =>
        (Ok tt,
         (s, add_log DEBUG "MCP test server is ready"
               {| trace := trace w; logs := logs w;
                  clock := clock w + list_tools_time k |}))
    | Raise e =>
        (Raise (if is_Exception e then not_ready_error e else e),
         (s, {| trace := trace w; logs := logs w;
                clock := clock w + list_tools_time k |}))
    end
  else (Raise (not_ready_error not_started_error), (s, w)).
Proof.
  unfold wait_for_ready, is_running. unfold bind at 1. unfold get.
  cbv beta iota. unfold try_except, try_excepts. unfold bind at 1.
  rewrite get_client_spec.
  destruct (_client s) as [c|] eqn:Hc; [|reflexivity].
  destruct (is_connected c) eqn:Hconn; [|reflexivity].
  unfold bind, on_client. rewrite Hc, list_tools_spec.
  unfold is_connected in Hconn.
  destruct (_session c); [|discriminate].
  assert (Hs : set_client (Some c) s = s)
    by (destruct s; unfold set_client; simpl in *; rewrite Hc; reflexivity).
  rewrite Hs.
  destruct (list_tools_reply k) as [tools|e]; simpl; [reflexivity|].
  destruct (is_Exception e); reflexivity.
Qed.

(** X14. [create] adds a manager that is not running and tracks it; the
    references of the factory keep pointing to managers it created. *)
Theorem create_tracks_new_server f w :
  factory_wf f ->
  exists f',
    create (f, w) = (Ok (length (created f)), (f', w))
    /\ created f' !! length (created f)
       = Some (new_server (f_command f) (f_args f) (f_timeout f))
    /\ (forall ref s, created f !! ref = Some s -> created f' !! ref = Some s)
    /\ _servers f' = _servers f ++ [length (created f)]
    /\ factory_wf f'.
Proof.
  intros Hwf.
  exists (set_servers (_servers f ++ [length (created f)])
            (set_created
               (created f ++ [new_server (f_command f) (f_args f) (f_timeout f)])
               f)).
  split; [reflexivity|]. simpl.
  split; [apply list_lookup_middle; reflexivity|].
  split; [intros ref s Hs; apply lookup_app_l_Some, Hs|].
  split; [reflexivity|].
  unfold factory_wf in *. simpl. rewrite length_app. simpl.
  apply Forall_app. split.
  - eapply Forall_impl; [exact Hwf|]. simpl. intros. lia.
  - constructor; [lia | constructor].
Qed.

Lemma create_tracks_new_server_witness :
  fst (create (empty_factory, world0)) = Ok 0%nat
  /\ factory_wf (fst (snd (create (empty_factory, world0)))).
Proof.
  destruct (create_tracks_new_server empty_factory world0
              (List.Forall_nil _)) as (f' & Hcreate & _ & _ & _ & Hwf).
  rewrite Hcreate. split; [reflexivity | exact Hwf].
Defined.

(** X15. When [stop_all] returns, the factory tracks no manager any more: a
    further [stop_all] stops nothing, also not a manager of this factory
    that was started again in between. *)
Theorem stop_all_forgets k k2 f w f' w' :
  stop_all k (f, w) = (Ok tt, (f', w')) ->
  _servers f' = []
  /\ forall objs w2,
       stop_all k2 (set_created objs f', w2) = (Ok tt, (set_created objs f', w2)).
Proof.
  unfold stop_all. unfold bind at 1. unfold get. cbv beta iota. unfold bind.
  match goal with
  | |- context [for_each ?l ?b ?st] =>
      destruct (for_each l b st) as [[[]|e] [f1 w1]]; [|discriminate]
  end.
  unfold modify. intros H. injection H as <- <-.
  split; [reflexivity|]. intros objs w2. destruct f1. reflexivity.
Qed.

Lemma stop_all_forgets_witness :
  let st := snd (stop_all (fun _ => healthy_sdk)
                   (one_running_factory, running_world)) in
  let restarted := (set_created [running_server] (fst st), snd st) in
  stop_all (fun _ => healthy_sdk) restarted = (Ok tt, restarted).
Proof.
  intros st restarted.
  destruct (stop_all (fun _ => healthy_sdk) (one_running_factory, running_world))
    as [r [f' w']] eqn:Hrun.
  assert (Hr : r = Ok tt)
    by (vm_compute in Hrun; injection Hrun as <- _; reflexivity).
  subst r st restarted. cbn [fst snd].
  exact (proj2 (stop_all_forgets (fun _ => healthy_sdk) (fun _ => healthy_sdk)
                  one_running_factory running_world f' w' Hrun)
           [running_server] w').
Defined.

(** X16. A body run under [async with] on the manager gets its outcome handed
    through, and when the block is left the manager holds no client,
    whatever the body did, provided exiting the scopes raises nothing but
    [Exception]s; when starting fails the body does not run. *)
Theorem server_context_stops {A} k (body : M server_state A) s w :
  tame k = true ->
  match start k (s, w) with
  | (Raise e, st1) => server_context k body (s, w) = (Raise e, st1)
  | (Ok _, st1) =>
      exists w',
        server_context k body (s, w)
        = (fst (body st1), (set_client None (fst (snd (body st1))), w'))
  end.
Proof.
  intros Htame. unfold server_context, bind.
  destruct (start k (s, w)) as [[[]|e] st1]; [|reflexivity].
  unfold try_finally. destruct (body st1) as [r [s2 w2]]. simpl.
  destruct (stop_tame k s2 w2 Htame) as [w' Hstop]. rewrite Hstop.
  exists w'. reflexivity.
Qed.

Lemma server_context_stops_witness :
  let k := with_session_exit (Some exit_error) healthy_sdk in
  let body := wait_for_ready k None in
  fst (server_context k body (new_server "python" ["server.py"] 30, world0))
  = Ok tt
  /\ _client (fst (snd (server_context k body
                          (new_server "python" ["server.py"] 30, world0))))
     = None.
Proof.
  intros k body.
  pose proof (server_context_stops k body (new_server "python" ["server.py"] 30)
                world0 eq_refl) as H.
  destruct (start k (new_server "python" ["server.py"] 30, world0))
    as [r st1] eqn:Hstart.
  vm_compute in Hstart. injection Hstart as <- <-.
  destruct H as [w' ->]. split; reflexivity.
Defined.

Lemma before_bracket_case base params :
  before_bracket (case_name base params) = before_bracket base.
Proof.
  unfold case_name. induction base as [|c base IH].
  - rewrite str_app_nil. reflexivity.
  - rewrite str_app_cons. cbn [before_bracket].
    destruct (ascii_eqb c "["); [reflexivity | rewrite IH; reflexivity].
Qed.

Lemma same_identity_same_store h1 h2 :
  test_identity h1 = test_identity h2 ->
  update_snapshots h1 = update_snapshots h2 ->
  (forall name, _get_snapshot_path h1 name = _get_snapshot_path h2 name)
  /\ (forall value name update fs,
        assert_match h1 value name update fs
        = assert_match h2 value name update fs)
  /\ (forall content name update fs,
        assert_match_text h1 content name update fs
        = assert_match_text h2 content name update fs)
  /\ (forall name fs, get_snapshot h1 name fs = get_snapshot h2 name fs)
  /\ (forall name fs, delete_snapshot h1 name fs = delete_snapshot h2 name fs)
  /\ (forall fs, list_snapshots h1 fs = list_snapshots h2 fs).
Proof.
  intros Hid Hup.
  assert (Hpath : forall name,
             _get_snapshot_path h1 name = _get_snapshot_path h2 name)
    by (intros name; unfold _get_snapshot_path; rewrite Hid; reflexivity).
  assert (Hsu : forall update, should_update h1 update = should_update h2 update)
    by (intros [u|]; simpl; [reflexivity | exact Hup]).
  split; [exact Hpath|].
  split; [intros; unfold assert_match; rewrite Hpath, !Hsu; reflexivity|].
  split; [intros; unfold assert_match_text; rewrite Hpath, !Hsu; reflexivity|].
  split; [intros; unfold get_snapshot; rewrite Hpath; reflexivity|].
  split; [intros; unfold delete_snapshot; rewrite Hpath; reflexivity|].
  intros; unfold list_snapshots; rewrite Hid; reflexivity.
Qed.

(** X17. The cases of a parametrized test share their snapshots: the file
    of a snapshot name is the same for every parameter set, so every
    operation of the helper behaves in one case as in any other. *)
Theorem parametrized_cases_share_snapshots base p1 p2 flag :
  let h1 := {| node_name := case_name base p1; update_snapshots := flag |} in
  let h2 := {| node_name := case_name base p2; update_snapshots := flag |} in
  (forall name, _get_snapshot_path h1 name = _get_snapshot_path h2 name)
  /\ (forall value name update fs,
        assert_match h1 value name update fs
        = assert_match h2 value name update fs)
  /\ (forall content name update fs,
        assert_match_text h1 content name update fs
        = assert_match_text h2 content name update fs)
  /\ (forall name fs, get_snapshot h1 name fs = get_snapshot h2 name fs)
  /\ (forall name fs, delete_snapshot h1 name fs = delete_snapshot h2 name fs)
  /\ (forall fs, list_snapshots h1 fs = list_snapshots h2 fs).
Proof.
  intros h1 h2. apply same_identity_same_store; [|reflexivity].
  unfold test_identity, h1, h2. cbn [node_name].
  rewrite !before_bracket_case. reflexivity.
Qed.






























Lemma key_le_trans {A} (key : A -> string) : Transitive (key_le key).
Proof. intros a b c. unfold key_le. apply transitivity. Qed.

Lemma HdRel_insert_sorted_key {A} (key : A -> string) x y l :
  key_le key y x -> HdRel (key_le key) y l ->
  HdRel (key_le key) y (insert_sorted key x l).
Proof.
  intros Hyx Hl. destruct l as [|z l]; simpl.
  - constructor. exact Hyx.
  - destruct (String.leb (key x) (key z)); constructor; [exact Hyx|].
    inversion Hl. assumption.
Qed.

Lemma insert_sorted_key_Sorted {A} (key : A -> string) x l :
  Sorted (key_le key) l -> Sorted (key_le key) (insert_sorted key x l).
Proof.
  induction l as [|y l IH]; intros Hs; simpl.
  - repeat constructor.
  - destruct (String.leb (key x) (key y)) eqn:Hxy.
    + constructor; [exact Hs|]. constructor.
      unfold key_le, String.le. rewrite Hxy. exact I.
    + inversion Hs as [|? ? Hl Hhd]; subst. constructor; [apply IH, Hl|].
      apply HdRel_insert_sorted_key; [|exact Hhd].
      destruct (total String.le (key x) (key y)) as [H | H]; [|exact H].
      unfold String.le in H. rewrite Hxy in H. destruct H.
Qed.

Lemma py_sorted_key_Sorted {A} (key : A -> string) l :
  Sorted (key_le key) (py_sorted key l).
Proof.
  unfold py_sorted. induction l as [|x l IH]; simpl; [constructor|].
  apply insert_sorted_key_Sorted, IH.
Qed.

Lemma same_key_same_item {A} (key : A -> string) l x1 x2 :
  NoDup (map key l) -> In x1 l -> In x2 l -> key x1 = key x2 -> x1 = x2.
Proof.
  induction l as [|y l IH]; simpl; [contradiction|].
  intros Hnd H1 H2 Hk. apply NoDup_cons in Hnd as [Hy Hnd].
  rewrite list_elem_of_In in Hy.
  destruct H1 as [-> | H1], H2 as [-> | H2].
  - reflexivity.
  - exfalso. apply Hy. rewrite Hk. apply in_map, H2.
  - exfalso. apply Hy. rewrite <- Hk. apply in_map, H1.
  - apply IH; assumption.
Qed.

(** Sorting items with distinct keys gives one result, whatever their
    order was. *)
Lemma py_sorted_distinct_keys {A} (key : A -> string) l l' :
  NoDup (map key l) -> l ≡ₚ l' -> py_sorted key l = py_sorted key l'.
Proof.
  intros Hnd Hperm.
  pose proof (key_le_trans key) as Htrans.
  apply (Sorted_unique_strong (key_le key)).
  - intros x1 x2 H1 H2 H12 H21.
    rewrite (py_sorted_perm key l) in H1.
    rewrite (py_sorted_perm key l'), <- Hperm in H2.
    apply (same_key_same_item key l); [exact Hnd | | |].
    + apply list_elem_of_In, H1.
    + apply list_elem_of_In, H2.
    + apply (anti_symm String.le); assumption.
  - apply py_sorted_key_Sorted.
  - apply py_sorted_key_Sorted.
  - rewrite !(py_sorted_perm key). exact Hperm.
Qed.

(** X24. The text of a dict does not depend on the order in which its items
    were inserted (its keys are distinct), so neither does any outcome of
    [assert_match]. *)
Theorem serialize_ignores_item_order items items' :
  NoDup (map fst items) ->
  items ≡ₚ items' ->
  (forall level,
     iterencode level (VDict items) = iterencode level (VDict items'))
  /\ _serialize (Plain (VDict items)) = _serialize (Plain (VDict items'))
  /\ (forall h name update fs,
        assert_match h (Plain (VDict items)) name update fs
        = assert_match h (Plain (VDict items')) name update fs).
Proof.
  intros Hnd Hperm.
  assert (Henc : forall level,
             iterencode level (VDict items) = iterencode level (VDict items')).
  { intros level. destruct items as [|kv l], items' as [|kv' l'].
    - reflexivity.
    - apply Permutation_nil_l in Hperm. discriminate.
    - apply Permutation_nil_r in Hperm. discriminate.
    - rewrite !iterencode_dict.
      rewrite (py_sorted_distinct_keys fst (kv :: l) (kv' :: l') Hnd Hperm).
      reflexivity. }
  assert (Hser : _serialize (Plain (VDict items))
                 = _serialize (Plain (VDict items')))
    by (unfold _serialize, json_dumps; rewrite Henc; reflexivity).
  split; [exact Henc|]. split; [exact Hser|].
  intros h name update fs. unfold assert_match. rewrite Hser. reflexivity.
Qed.

Lemma serialize_ignores_item_order_witness :
  _serialize (Plain (VDict [("b"%string, VInt 2); ("a"%string, VInt 1)]))
  = _serialize (Plain (VDict [("a"%string, VInt 1); ("b"%string, VInt 2)])).
Proof.
  refine (proj1 (proj2 (serialize_ignores_item_order
            [("b"%string, VInt 2); ("a"%string, VInt 1)]
            [("a"%string, VInt 1); ("b"%string, VInt 2)] _ _))).
  - simpl. constructor; [|constructor; [|constructor]].
    + intros H. apply list_elem_of_In in H. simpl in H.
      destruct H as [H | []]. discriminate H.
    + intros H. apply list_elem_of_In in H. destruct H.
  - apply perm_swap.
Defined.

Lemma plain_text_app a b : plain_text (a ++ b) = plain_text a && plain_text b.
Proof. apply forallb_app. Qed.

Lemma escape_char_plain c : plain_text (escape_char c) = true.
Proof. destruct c as [[] [] [] [] [] [] [] []]; vm_compute; reflexivity. Qed.

Lemma encode_str_plain s : plain_text (encode_str s) = true.
Proof.
  unfold encode_str.
  assert (Hbody : plain_text (flat_map escape_char (chars s)) = true).
  { induction (chars s) as [|c l IH]; [reflexivity|].
    cbn [flat_map]. rewrite plain_text_app, escape_char_plain, IH.
    reflexivity. }
  change (plain_text ([dquote] ++ flat_map escape_char (chars s) ++ [dquote])
          = true).
  rewrite !plain_text_app, Hbody. reflexivity.
Qed.

Lemma uint_chars_plain d : plain_text (uint_chars d) = true.
Proof. induction d; simpl; auto. Qed.

Lemma encode_int_plain n : plain_text (encode_int n) = true.
Proof. destruct n; simpl; auto using uint_chars_plain. Qed.

Lemma newline_indent_plain level : plain_text (newline_indent level) = true.
Proof.
  unfold newline_indent. cbn [plain_text forallb].
  induction (2 * level)%nat as [|n IH]; [reflexivity|]. exact IH.
Qed.

Lemma join_plain sep pieces :
  plain_text sep = true ->
  Forall (fun p => plain_text p = true) pieces ->
  plain_text (join sep pieces) = true.
Proof.
  intros Hsep Hall. induction Hall as [|p l Hp Hl IH]; [reflexivity|].
  destruct l as [|q l]; simpl.
  - rewrite ?app_nil_r. exact Hp.
  - simpl in IH. rewrite !plain_text_app, Hp, Hsep, IH. reflexivity.
Qed.

Lemma separator_plain level : plain_text (separator level) = true.
Proof.
  unfold separator. rewrite plain_text_app, newline_indent_plain. reflexivity.
Qed.

Lemma iterencode_plain v : forall level, plain_text (iterencode level v) = true.
Proof.
  induction v as [| b | n | s | s | elems IH | items IH]
    using pyvalue_nested_ind; intros level.
  - reflexivity.
  - destruct b; reflexivity.
  - apply encode_int_plain.
  - apply encode_str_plain.
  - apply encode_str_plain.
  - destruct elems as [|x l]; [reflexivity|].
    rewrite iterencode_list.
    change (plain_text (?c :: ?t)) with (plain_char c && plain_text t).
    rewrite !plain_text_app, !newline_indent_plain.
    rewrite join_plain; [reflexivity | apply separator_plain |].
    apply List.Forall_map. eapply List.Forall_impl; [|exact IH].
    intros a Ha. apply Ha.
  - destruct items as [|kv l]; [reflexivity|].
    rewrite iterencode_dict.
    change (plain_text (?c :: ?t)) with (plain_char c && plain_text t).
    rewrite !plain_text_app, !newline_indent_plain.
    rewrite join_plain; [reflexivity | apply separator_plain |].
    apply List.Forall_map. rewrite (py_sorted_perm fst (kv :: l)).
    eapply List.Forall_impl; [|exact IH].
    intros a Ha. unfold enc_item, encode_item. cbn [fst snd].
    rewrite !plain_text_app, encode_str_plain, Ha. reflexivity.
Qed.

(** X25. The text of a snapshot consists of printable ASCII characters and
    line breaks only, whatever characters the strings of the value hold:
    [json.dumps] escapes all others. *)
Theorem serialized_text_is_plain_ascii value :
  forallb plain_char (chars (_serialize value)) = true.
Proof.
  change (plain_text (chars (_serialize value)) = true).
  destruct value; unfold _serialize, json_dumps; rewrite chars_str;
    apply iterencode_plain.
Qed.

Lemma str_in_find name tools :
  str_in name (map tool_name tools) = true ->
  exists t, find (fun t => String.eqb (tool_name t) name) tools = Some t.
Proof.
  unfold str_in. induction tools as [|t tools IH]; simpl; [discriminate|].
  rewrite (String.eqb_sym name). destruct (String.eqb (tool_name t) name).
  - eauto.
  - simpl. exact IH.
Qed.

Lemma find_str_in name tools :
  find (fun t => String.eqb (tool_name t) name) tools = None ->
  str_in name (map tool_name tools) = false.
Proof.
  unfold str_in. induction tools as [|t tools IH]; simpl; [reflexivity|].
  rewrite (String.eqb_sym name). destruct (String.eqb (tool_name t) name).
  - discriminate.
  - simpl. exact IH.
Qed.

(** X26. [assert_tool_exists] hands an exception of [list_tools] through;
    otherwise it returns the first tool of the list with the name asked
    for, and raises the [AssertionError] naming the available tools when
    there is none.  The lookup after the membership test never fails. *)
Theorem assert_tool_exists_outcomes k name st :
  assert_tool_exists k name st =
  match list_tools k st with
  | (Ok tools, st') =>
      match find (fun t => String.eqb (tool_name t) name) tools with
      | Some t => (Ok t, st')
      | None =>
          (Raise (Exn AssertionError
                    (tool_not_found_message name (map tool_name tools)) None),
           st')
      end
  | (Raise e, st') => (Raise e, st')
  end.
Proof.
  unfold assert_tool_exists, bind.
  destruct (list_tools k st) as [[tools|e] st']; [|reflexivity].
  destruct (find _ tools) as [t|] eqn:Hfind.
  - destruct (str_in name (map tool_name tools)) eqn:Hin; [reflexivity|].
    exfalso. clear -Hfind Hin. unfold str_in in Hin.
    induction tools as [|u tools IH]; simpl in *; [discriminate|].
    rewrite (String.eqb_sym name) in Hin.
    destruct (String.eqb (tool_name u) name); [discriminate|].
    apply IH; assumption.
  - rewrite (find_str_in name tools Hfind). reflexivity.
Qed.

Lemma remove_dups_length (l : list string) :
  (length (remove_dups l) <= length l)%nat
  /\ (length (remove_dups l) = length l <-> NoDup l).
Proof.
  induction l as [|x l [Hle Hiff]]; simpl.
  - split; [lia|]. split; [constructor | reflexivity].
  - destruct (decide_rel elem_of x l) as [Hin | Hnot]; simpl.
    + split; [lia|]. split; [lia|].
      intros Hnd. apply NoDup_cons in Hnd as [Hx _]. contradiction.
    + split; [lia|]. rewrite NoDup_cons. split.
      * intros H. split; [exact Hnot|]. apply Hiff. lia.
      * intros [_ H]. apply Hiff in H. lia.
Qed.

(** X27. When [list_tools] answers, [assert_tools_have_unique_names] returns
    exactly when the names of the tools are pairwise distinct, and raises
    an [AssertionError] otherwise, in whatever order sets are iterated. *)
Theorem unique_names_assertion set_iter k st tools st' :
  list_tools k st = (Ok tools, st') ->
  snd (assert_tools_have_unique_names set_iter k st) = st'
  /\ (fst (assert_tools_have_unique_names set_iter k st) = Ok tt
      <-> NoDup (map tool_name tools))
  /\ assertion_failed (fst (assert_tools_have_unique_names set_iter k st))
     = negb (bool_decide (NoDup (map tool_name tools))).
Proof.
  intros Hlist. unfold assert_tools_have_unique_names, bind. rewrite Hlist.
  destruct (remove_dups_length (map tool_name tools)) as [_ Hiff].
  destruct (length (map tool_name tools)
            =? length (remove_dups (map tool_name tools)))%nat eqn:Hlen.
  - apply Nat.eqb_eq in Hlen. symmetry in Hlen. apply Hiff in Hlen.
    simpl. rewrite bool_decide_eq_true_2 by exact Hlen. tauto.
  - apply Nat.eqb_neq in Hlen.
    assert (Hdup : ~ NoDup (map tool_name tools))
      by (intros H; apply Hiff in H; lia).
    simpl. rewrite bool_decide_eq_false_2 by exact Hdup.
    split; [reflexivity|]. split; [|reflexivity].
    split; [discriminate | contradiction].
Qed.

Lemma unique_names_assertion_witness :
  assertion_failed
    (fst (assert_tools_have_unique_names id
            (with_list_tools (Ok sample_tools) healthy_sdk)
            (connected_client, running_world)))
  = true.
Proof.
  pose proof (unique_names_assertion id
                (with_list_tools (Ok sample_tools) healthy_sdk)
                (connected_client, running_world) sample_tools _ eq_refl)
    as (_ & _ & H).
  rewrite H. reflexivity.
Defined.

(** X28. With [partial=True] the assertion returns in one case only: the
    result has a single text and the expectation is a string contained in
    it.  An expected dict is never compared, as the text is not decoded
    in this mode: with it the call always fails. *)
Theorem partial_match_only_for_substrings F res expected :
  (assert_tool_output_matches F res expected true = Ok tt
   <-> exists text e,
         res = [text] /\ expected = JStr e /\ contains e text = true)
  /\ (assert_tool_output_matches F res expected true = Ok tt
      \/ assertion_failed (assert_tool_output_matches F res expected true)
         = true)
  /\ (forall items,
        assertion_failed
          (assert_tool_output_matches F res (JDict items) true) = true).
Proof.
  split; [|split].
  - split.
    + destruct res as [|a [|b l]]; [discriminate| |];
        destruct expected; try discriminate.
      simpl. destruct (contains s a) eqn:Hc; [|discriminate].
      intros _. exists a, s. auto.
    + intros (text & e & -> & -> & Hc). simpl. rewrite Hc. reflexivity.
  - destruct res as [|a [|b l]]; [right; reflexivity| |];
      destruct expected; try (right; reflexivity).
    simpl. destruct (contains s a); [left | right]; reflexivity.
  - intros items. destruct res as [|a [|b l]]; reflexivity.
Qed.

(** X29. An expectation that is [None], a [bool] or an [int] never matches:
    the texts of the result are compared as they are, so that the call
    fails whatever the result holds. *)
Theorem scalar_expectation_never_matches F res expected partial :
  is_scalar expected = true ->
  assertion_failed (assert_tool_output_matches F res expected partial) = true.
Proof.
  intros Hscalar. destruct res as [|a [|b l]]; [reflexivity| |];
    destruct expected; try discriminate; destruct partial; reflexivity.
Qed.

Lemma scalar_expectation_never_matches_witness :
  assertion_failed
    (assert_tool_output_matches plain_formatter
       ["3"%string] (JInt 3) false)
  = true.
Proof.
  exact (scalar_expectation_never_matches
           plain_formatter
           ["3"%string] (JInt 3) false eq_refl).
Defined.


